(** * Confluence export to SharePoint migration: a shallow embedding

    The development follows [confluenc_to_sharepoint.py].  The parsed HTML
    of BeautifulSoup is a rose tree of tags and strings, Python dictionaries
    with string keys are finite maps or, where insertion order is visible
    (tag attributes), association lists, exceptions are explicit results and
    the remote site is a state threaded through the calls. *)

From Stdlib Require Import String Ascii List Bool Arith Lia.
From stdpp Require Import base option strings list gmap.
Import ListNotations.
Local Open Scope string_scope.
#[local] Set Warnings "-register-all".
#[local] Arguments String.append !s1 s2 : simpl nomatch.

(** ** Parsed HTML *)

Module Html.

(** A tag's [attrs] dictionary: keys in insertion order. *)
Definition attrs := list (string * string).

(** [tag[key]] reads; [None] stands for Python's [KeyError]. *)
Fixpoint get_attr (key : string) (a : attrs) : option string :=
  match a with
  | [] => None
  | (k, v) :: rest => if String.eqb k key then Some v else get_attr key rest
  end.

(** [tag[key] = value]: an existing key keeps its position, a new key goes
    last. *)
Fixpoint set_attr (key value : string) (a : attrs) : attrs :=
  match a with
  | [] => [(key, value)]
  | (k, v) :: rest =>
      if String.eqb k key then (k, value) :: rest
      else (k, v) :: set_attr key value rest
  end.

(** A node of the parse tree: a [NavigableString] or a [Tag].  The
    [BeautifulSoup] object itself is a tag named ["[document]"]. *)
Inductive node : Type :=
| NavigableString (s : string)
| Tag (name : string) (tag_attrs : attrs) (contents : list node).

Definition document_name : string := "[document]".

Definition is_tag (n : node) : bool :=
  match n with Tag _ _ _ => true | NavigableString _ => false end.

Definition node_name (n : node) : option string :=
  match n with Tag nm _ _ => Some nm | NavigableString _ => None end.

Definition node_attrs (n : node) : attrs :=
  match n with Tag _ a _ => a | NavigableString _ => [] end.

Definition node_contents (n : node) : list node :=
  match n with Tag _ _ c => c | NavigableString _ => [] end.

(** [tag.text]: the concatenation of all strings below the node. *)
Fixpoint text (n : node) : string :=
  match n with
  | NavigableString s => s
  | Tag _ _ c => (fix go (l : list node) : string :=
                    match l with
                    | [] => ""
                    | x :: r => text x ++ go r
                    end) c
  end.

Definition text_list (l : list node) : string :=
  fold_right (fun x acc => text x ++ acc) "" l.

(** [tag.descendants]: every node below [n] in document order. *)
Fixpoint descendants (n : node) : list node :=
  match n with
  | NavigableString _ => []
  | Tag _ _ c => (fix go (l : list node) : list node :=
                    match l with
                    | [] => []
                    | x :: r => x :: descendants x ++ go r
                    end) c
  end.

Definition descendants_list (l : list node) : list node :=
  flat_map (fun x => x :: descendants x) l.

(** The characters of a string are the code points below 256.  Those that
    [str.strip] and [str.split] take for whitespace: space, the controls
    9..13 and 28..31, the next-line control 133 and the no-break space
    160. *)
Definition is_space (c : ascii) : bool :=
  let n := nat_of_ascii c in
  Nat.eqb n 32 || (Nat.leb 9 n && Nat.leb n 13)
  || (Nat.leb 28 n && Nat.leb n 31) || Nat.eqb n 133 || Nat.eqb n 160.

Fixpoint lstrip (s : string) : string :=
  match s with
  | EmptyString => EmptyString
  | String c r => if is_space c then lstrip r else s
  end.

Fixpoint rstrip (s : string) : string :=
  match s with
  | EmptyString => EmptyString
  | String c r =>
      match rstrip r with
      | EmptyString => if is_space c then EmptyString else String c EmptyString
      | r' => String c r'
      end
  end.

Definition strip (s : string) : string := rstrip (lstrip s).

(** [sub in s]. *)
Fixpoint contains (sub s : string) : bool :=
  String.prefix sub s ||
  match s with
  | EmptyString => false
  | String _ r => contains sub r
  end.

(** [s.replace(c, "")] for a one-character [c]. *)
Fixpoint remove_char (c : ascii) (s : string) : string :=
  match s with
  | EmptyString => EmptyString
  | String d r => if Ascii.eqb d c then remove_char c r
                  else String d (remove_char c r)
  end.

(** The value of a [class] attribute as a list of names: split at
    whitespace. *)
Fixpoint split_ws_aux (cur : string) (s : string) : list string :=
  match s with
  | EmptyString => match cur with EmptyString => [] | _ => [cur] end
  | String c r =>
      if is_space c then
        match cur with
        | EmptyString => split_ws_aux EmptyString r
        | _ => cur :: split_ws_aux EmptyString r
        end
      else split_ws_aux (cur ++ String c EmptyString) r
  end.

(** [s.split()]. *)
Definition split_ws (s : string) : list string := split_ws_aux EmptyString s.

(** [' '.join(s.split())]. *)
Definition normalize_ws (s : string) : string :=
  String.concat " " (split_ws s).

Definition has_class (cls : string) (n : node) : bool :=
  match get_attr "class" (node_attrs n) with
  | Some v => existsb (String.eqb cls) (split_ws v)
  | None => false
  end.

(** A compound CSS selector: an optional tag name, class and id. *)
Record compound : Type := {
  sel_name : option string;
  sel_class : option string;
  sel_id : option string
}.

Definition matches (c : compound) (n : node) : bool :=
  match n with
  | NavigableString _ => false
  | Tag name a _ =>
      match sel_name c with Some t => String.eqb t name | None => true end
      && match sel_class c with Some k => has_class k n | None => true end
      && match sel_id c with
         | Some i => match get_attr "id" a with
                     | Some v => String.eqb v i
                     | None => false
                     end
         | None => true
         end
  end.

(** [select] for compounds joined by the descendant combinator.
    [pending] are the compounds that ancestors have yet to match, outermost
    first; an element is selected when none is pending and it matches
    [last]. *)
Fixpoint select_below (pending : list compound) (last : compound) (n : node)
  : list node :=
  match n with
  | NavigableString _ => []
  | Tag _ _ c =>
      (fix go (l : list node) : list node :=
         match l with
         | [] => []
         | x :: r =>
             let here :=
               match pending with
               | [] => if matches last x then [x] else []
               | _ :: _ => []
               end in
             let pending' :=
               match pending with
               | [] => []
               | p :: rest => if matches p x then rest else pending
               end in
             List.app here (List.app (select_below pending' last x) (go r))
         end) c
  end.

Definition select (ancestors : list compound) (last : compound) (n : node)
  : list node :=
  select_below ancestors last n.

Definition select_one (ancestors : list compound) (last : compound) (n : node)
  : option node :=
  List.head (select ancestors last n).

Definition by_class (cls : string) : compound :=
  {| sel_name := None; sel_class := Some cls; sel_id := None |}.
Definition by_name (name : string) : compound :=
  {| sel_name := Some name; sel_class := None; sel_id := None |}.
Definition by_id (i : string) : compound :=
  {| sel_name := None; sel_class := None; sel_id := Some i |}.
Definition by_name_class (name cls : string) : compound :=
  {| sel_name := Some name; sel_class := Some cls; sel_id := None |}.

(** [element.decompose()] for every element that [select(".cls")] finds
    below [n]: the element leaves the tree with all it contains. *)
Fixpoint remove_class (cls : string) (n : node) : node :=
  match n with
  | NavigableString _ => n
  | Tag name a c =>
      Tag name a
        ((fix go (l : list node) : list node :=
            match l with
            | [] => []
            | x :: r =>
                if is_tag x && has_class cls x then go r
                else remove_class cls x :: go r
            end) c)
  end.

End Html.

(** ** The importer's settings and SharePoint identifiers

    The fields of [self] that the transformation reads: [ctx._base_url],
    [assets_folder], [windows_path], [site.id], [web.id] and [ll_list.id]. *)

Record Importer : Type := {
  base_url : string;
  assets_folder : string;
  windows_path : bool;
  site_id : string;
  web_id : string;
  list_id : string
}.

(** ** Reference rewriting *)

Module Rewriter.
Import Html.

(** [main_path = f"{self.ctx._base_url}/{self.assets_folder}"]. *)
Definition main_path (self : Importer) : string :=
  base_url self ++ "/" ++ assets_folder self.

(** [f"{main_path}/{value}"]. *)
Definition prefixed (self : Importer) (value : string) : string :=
  main_path self ++ "/" ++ value.

(** One iteration of the loop of [fixAttachmentsPath].  [None] is the
    [KeyError] of a link without [href] or an image without [src]; the
    right-hand side is evaluated before either assignment, and the chained
    assignment stores [src] first, then [href]. *)
Definition fix_attachment (self : Importer) (attachment : node) : option node :=
  match attachment with
  | NavigableString _ => Some attachment
  | Tag name a c =>
      if String.eqb name "a" then
        match get_attr "href" a with
        | Some h => Some (Tag name (set_attr "href" (prefixed self h) a) c)
        | None => None
        end
      else if String.eqb name "img" then
        match get_attr "src" a with
        | Some s =>
            let url := prefixed self s in
            Some (Tag name (set_attr "href" url (set_attr "src" url a)) c)
        | None => None
        end
      else Some attachment
  end.

(** [fixAttachmentsPath]: the elements after the call and the returned
    flag.  An exception leaves the elements already visited rewritten and
    the others as they were, and the function returns [False]. *)
Fixpoint fixAttachmentsPath (self : Importer) (attachments : list node)
  : list node * bool :=
  match attachments with
  | [] => ([], true)
  | attachment :: rest =>
      match fix_attachment self attachment with
      | Some attachment' =>
          let (rest', ok) := fixAttachmentsPath self rest in
          (attachment' :: rest', ok)
      | None => (attachment :: rest, false)
      end
  end.

(** The match of [find_all(attrs={"data-linked-resource-type":
    "attachment"})]. *)
Definition is_attachment (n : node) : bool :=
  match n with
  | NavigableString _ => false
  | Tag _ a _ =>
      match get_attr "data-linked-resource-type" a with
      | Some v => String.eqb v "attachment"
      | None => false
      end
  end.

(** [find_all]: all matches below [n] in document order. *)
Definition find_all (p : node -> bool) (n : node) : list node :=
  List.filter p (descendants n).

(** The elements that [find_all] returns are the nodes of the tree
    themselves: an assignment to an attribute of one of them is an
    assignment in the tree.  [write_back p new n] gives the elements below
    [n] that satisfy [p], in document order, the attribute dictionaries
    [new], one each, and returns the dictionaries left over.  [p] is tested
    on the element as it was when [find_all] ran. *)
Fixpoint write_back (p : node -> bool) (new : list attrs) (n : node)
  : node * list attrs :=
  match n with
  | NavigableString _ => (n, new)
  | Tag name a c =>
      let (c', left) :=
        (fix go (new : list attrs) (l : list node)
           : list node * list attrs :=
           match l with
           | [] => ([], new)
           | x :: r =>
               let (top, new1) :=
                 if p x then
                   match new with
                   | a' :: rest => (Some a', rest)
                   | [] => (None, [])
                   end
                 else (None, new) in
               let (x2, new2) := write_back p new1 x in
               let x3 := match top, x2 with
                         | Some a', Tag nm _ c2 => Tag nm a' c2
                         | _, _ => x2
                         end in
               let (r', new3) := go new2 r in
               (x3 :: r', new3)
           end) new c in
      (Tag name a c', left)
  end.

(** The loop of [write_back] over the children, by name. *)
Fixpoint write_back_list (p : node -> bool) (new : list attrs)
  (l : list node) : list node * list attrs :=
  match l with
  | [] => ([], new)
  | x :: r =>
      let (top, new1) :=
        if p x then
          match new with
          | a' :: rest => (Some a', rest)
          | [] => (None, [])
          end
        else (None, new) in
      let (x2, new2) := write_back p new1 x in
      let x3 := match top, x2 with
                | Some a', Tag nm _ c2 => Tag nm a' c2
                | _, _ => x2
                end in
      let (r', new3) := write_back_list p new2 r in
      (x3 :: r', new3)
  end.

(** The lines of [parse_confluence_HTML] that fix the paths: the elements
    with the attachment attribute are found in [main_content], given to
    [fixAttachmentsPath], and the tree holds their attributes
    afterwards. *)
Definition fix_paths_in (self : Importer) (main_content : node) : node :=
  let attachments_obj := find_all is_attachment main_content in
  match attachments_obj with
  | [] => main_content
  | _ :: _ =>
      let (rewritten, _) := fixAttachmentsPath self attachments_obj in
      fst (write_back is_attachment (List.map node_attrs rewritten)
             main_content)
  end.

(** How [find] compares the [id] it is given with a tag's attribute.  A
    present attribute must be equal.  For a tag without the attribute,
    BeautifulSoup up to 4.12 accepts an empty search value and later
    versions do not: [none_matches_empty] is that choice. *)
Definition id_matches (none_matches_empty : bool) (value : string)
  (a : attrs) : bool :=
  match get_attr "id" a with
  | Some v => String.eqb v value
  | None => none_matches_empty && String.eqb value ""
  end.

(** The match of [main_content.find("h3", {"id": value})]. *)
Definition is_anchor (none_matches_empty : bool) (value : string)
  (n : node) : bool :=
  match n with
  | NavigableString _ => false
  | Tag name a _ =>
      String.eqb name "h3" && id_matches none_matches_empty value a
  end.

(** [find]: the first match below [n] in document order. *)
Definition find (p : node -> bool) (n : node) : option node :=
  List.find p (descendants n).

(** [f] applied to the first node below [n] that satisfies [p], in
    document order; [None] when there is none. *)
Fixpoint replace_first (p : node -> bool) (f : node -> node) (n : node)
  : option node :=
  match n with
  | NavigableString _ => None
  | Tag name a c =>
      option_map (Tag name a)
        ((fix go (l : list node) : option (list node) :=
            match l with
            | [] => None
            | x :: r =>
                if p x then Some (f x :: r)
                else match replace_first p f x with
                     | Some x' => Some (x' :: r)
                     | None => option_map (cons x) (go r)
                     end
            end) c)
  end.

(** The loop of [replace_first] over the children, by name. *)
Fixpoint replace_first_list (p : node -> bool) (f : node -> node)
  (l : list node) : option (list node) :=
  match l with
  | [] => None
  | x :: r =>
      if p x then Some (f x :: r)
      else match replace_first p f x with
           | Some x' => Some (x' :: r)
           | None => option_map (cons x) (replace_first_list p f r)
           end
  end.

(** The body of [if anchor:]: the tag is renamed to [a], its new [h3] child
    gets the stripped text, [anchor.string = ""] replaces the old children
    by one empty string and the [h3] is appended. *)
Definition convert_anchor (anchor : node) : node :=
  match anchor with
  | NavigableString _ => anchor
  | Tag _ a _ =>
      Tag "a" a
        [NavigableString "";
         Tag "h3" [] [NavigableString (strip (text anchor))]]
  end.

Definition starts_with_hash (href : string) : bool :=
  match href with
  | String c _ => Ascii.eqb c "#"
  | EmptyString => false
  end.

(** One iteration of the loop of [fixAnchors] on the tree; [None] is the
    [KeyError] of [link["href"]]. *)
Definition fix_anchor (none_matches_empty : bool) (main_content link : node)
  : option node :=
  match get_attr "href" (node_attrs link) with
  | None => None
  | Some href =>
      if negb (String.eqb href "") && starts_with_hash href then
        match replace_first
                (is_anchor none_matches_empty (remove_char "#" href))
                convert_anchor main_content with
        | Some main_content' => Some main_content'
        | None => Some main_content
        end
      else Some main_content
  end.

(** [fixAnchors]: the tree after the call and whether it returned [True]
    (it re-raises otherwise).  The loop reads only the [href] of each link,
    which no iteration changes, so [links] is the list as [find_all] gave
    it. *)
Fixpoint fixAnchors (none_matches_empty : bool) (links : list node)
  (main_content : node) : node * bool :=
  match links with
  | [] => (main_content, true)
  | link :: rest =>
      match fix_anchor none_matches_empty main_content link with
      | Some main_content' => fixAnchors none_matches_empty rest main_content'
      | None => (main_content, false)
      end
  end.

(** The node reached from [n] by a path of child indices. *)
Fixpoint node_at (n : node) (path : list nat) : option node :=
  match path with
  | [] => Some n
  | i :: rest =>
      match nth_error (node_contents n) i with
      | Some child => node_at child rest
      | None => None
      end
  end.

(** Neither path leads through the other's node. *)
Definition apart (p q : list nat) : Prop :=
  ~ (exists r, q = List.app p r) /\ ~ (exists r, p = List.app q r).

(** The match of [find_all("a", href=True)]. *)
Definition is_link (n : node) : bool :=
  match n with
  | NavigableString _ => false
  | Tag name a _ =>
      String.eqb name "a" &&
      match get_attr "href" a with Some _ => true | None => false end
  end.

End Rewriter.


(** ** The page canvas *)

Module Canvas.
Import Html Rewriter.

(** The values that [json.dumps] receives. *)
Inductive json : Type :=
| JStr (s : string)
| JNum (n : nat)
| JList (l : list json)
| JDict (fields : list (string * json)).

Fixpoint field (key : string) (fields : list (string * json)) : option json :=
  match fields with
  | [] => None
  | (k, v) :: rest => if String.eqb k key then Some v else field key rest
  end.

Definition get (key : string) (j : json) : option json :=
  match j with
  | JDict fields => field key fields
  | _ => None
  end.

Definition nl : string := String (ascii_of_nat 10) EmptyString.

(** The whitespace between the tags of the placeholder's template. *)
Definition template_gap : string := nl ++ "                        ".

(** What [BeautifulSoup] builds from the template of the wrapper, parsed
    with [html.parser], for [guid]: the document, the wrapper [div], the
    inner [div] that carries [data-instance-id], and the whitespace of the
    template. *)
Definition placeholder (guid : string) : node :=
  Tag document_name []
    [Tag "div"
       [("tabindex", "-1");
        ("data-cke-widget-wrapper", "1");
        ("data-cke-filter", "off");
        ("class", "cke_widget_wrapper cke_widget_block cke_widget_inlineimage cke_widget_wrapper_webPartInRteInlineImage cke_widget_wrapper_webPartInRteClear cke_widget_wrapper_webPartInRteAlignCenter cke_widget_wrapper_webPartInRte");
        ("data-cke-display-name", "div");
        ("data-cke-widget-id", "5");
        ("role", "region");
        ("aria-label", "Inline image in RTE. Use Alt + F11 to go to toolbar. Use Alt + P to open the property pane.");
        ("contenteditable", "");
        ("false''", "")]
       [NavigableString template_gap;
        Tag "div"
          [("data-webpart-id", "image");
           ("class", "webPartInRte webPartInRteAlignCenter webPartInRteClear webPartInRteInlineImage cke_widget_element");
           ("data-cke-widget-data", "%7B%22classes%22%3A%7B%22webPartInRteInlineImage%22%3A1%2C%22webPartInRteClear%22%3A1%2C%22webPartInRteAlignCenter%22%3A1%2C%22webPartInRte%22%3A1%7D%7D");
           ("data-cke-widget-upcasted", "1");
           ("data-cke-widget-keep-attr", "0");
           ("data-widget", "inlineimage");
           ("data-instance-id", guid);
           ("title", "")]
          [];
        NavigableString template_gap];
     NavigableString template_gap].

Definition position (controlIndex : nat) : json :=
  JDict [("layoutIndex", JNum 1);
         ("zoneIndex", JNum 1);
         ("sectionIndex", JNum 1);
         ("sectionFactor", JNum 12);
         ("controlIndex", JNum controlIndex)].

Definition rte_instance_id : string := "7802ec32-078a-42a7-b455-8eae2538781f".
Definition image_web_part_id : string := "d1d91016-032f-456d-98a4-721247c305e8".

(** The dictionary appended for one image. *)
Definition image_block (self : Importer) (guid guid2 guid3 img_src : string)
  : json :=
  JDict
    [("position", position 0);
     ("controlType", JNum 3);
     ("id", JStr guid);
     ("webPartId", JStr image_web_part_id);
     ("rteInstanceId", JStr rte_instance_id);
     ("addedFromPersistedData", JStr "true");
     ("reservedHeight", JNum 160);
     ("reservedWidth", JNum 1178);
     ("webPartData",
      JDict
        [("id", JStr image_web_part_id);
         ("instanceId", JStr guid);
         ("title", JStr "Image");
         ("description", JStr "Add an image, picture or photo to your page including text overlays and ability to crop and resize images.");
         ("audiences", JList []);
         ("serverProcessedContent",
          JDict
            [("htmlStrings", JDict []);
             ("searchablePlainTexts", JDict []);
             ("imageSources", JDict [("imageSource", JStr img_src)]);
             ("links", JDict []);
             ("customMetadata",
              JDict
                [("imageSource",
                  JDict
                    [("siteId", JStr (site_id self));
                     ("webId", JStr (web_id self));
                     ("listId", JStr ("{" ++ list_id self ++ "}"));
                     ("uniqueId", JStr guid2);
                     ("width", JNum 352);
                     ("height", JNum 134)])])]);
         ("dataVersion", JStr "1.11");
         ("properties",
          JDict
            [("id", JStr guid3);
             ("linkUrl", JStr "");
             ("isInlineImage", JStr "true");
             ("siteId", JStr (site_id self));
             ("webId", JStr (web_id self));
             ("listId", JStr ("{" ++ list_id self ++ "}"));
             ("uniqueId", JStr guid2);
             ("imgHeight", JNum 134);
             ("imgWidth", JNum 352);
             ("imageSourceType", JNum 2);
             ("alignment", JStr "Center");
             ("fixAspectRatio", JStr "false");
             ("overlayText", JStr "");
             ("altText", JStr "")]);
         ("containsDynamicDataSource", JStr "false")])].

(** The rich-text dictionary. *)
Definition rich_text_block (innerHTML : string) : json :=
  JDict
    [("controlType", JNum 4);
     ("id", JStr rte_instance_id);
     ("position", position 1);
     ("addedFromPersistedData", JStr "true");
     ("innerHTML", JStr innerHTML)].

(** The page settings dictionary. *)
Definition settings_block : json :=
  JDict
    [("controlType", JNum 0);
     ("pageSettingsSlice",
      JDict
        [("isDefaultDescription", JStr "true");
         ("isDefaultThumbnail", JStr "true");
         ("isSpellCheckEnabled", JStr "true");
         ("globalRichTextStylingVersion", JNum 0);
         ("rtePageSettings", JDict [("contentVersion", JNum 4)])])].

(** The match of [find_all("img")]. *)
Definition is_img (n : node) : bool :=
  match n with
  | NavigableString _ => false
  | Tag name _ _ => String.eqb name "img"
  end.

Section Build.

(** [uuid4 k] is the string of the [k]-th [uuid.uuid4()] of the process,
    and [to_str] is BeautifulSoup's [str(tag)]. *)
Variable uuid4 : nat -> string.
Variable to_str : node -> string.

(** The dictionaries appended by [for img in images], from the [k]-th
    identifier on: the blocks, the number of identifiers drawn so far, and
    whether the loop ended without the [KeyError] of [img['src']].  The
    three identifiers are drawn before [src] is read. *)
Fixpoint image_blocks (self : Importer) (k : nat) (images : list node)
  : list json * nat * bool :=
  match images with
  | [] => ([], k, true)
  | img :: rest =>
      let guid := uuid4 k in
      let guid2 := uuid4 (k + 1) in
      let guid3 := uuid4 (k + 2) in
      match get_attr "src" (node_attrs img) with
      | None => ([], k + 3, false)
      | Some img_src =>
          let '(blocks, k', ok) := image_blocks self (k + 3) rest in
          (image_block self guid guid2 guid3 img_src :: blocks, k', ok)
      end
  end.

(** The effect of the calls [img.replace_with(soup)] on the tree below
    [n].  [i] is the index in [images] of the next image met, and the images
    of index below [limit] are replaced, the [i]-th one by the placeholder
    of [uuid4 (k + 3 * i)].  An image below a replaced image leaves the tree
    with it: its own replacement happens in the detached part. *)
Fixpoint replace_images (k limit i : nat) (n : node) : node * nat :=
  match n with
  | NavigableString _ => (n, i)
  | Tag name a c =>
      let (c', i') :=
        (fix go (i : nat) (l : list node) : list node * nat :=
           match l with
           | [] => ([], i)
           | x :: r =>
               if is_img x then
                 let x' := if Nat.ltb i limit
                           then placeholder (uuid4 (k + 3 * i))
                           else x in
                 let (r', j) :=
                   go (i + 1 + List.length (find_all is_img x)) r in
                 (x' :: r', j)
               else
                 let (x', i1) := replace_images k limit i x in
                 let (r', j) := go i1 r in
                 (x' :: r', j)
           end) i c in
      (Tag name a c', i')
  end.

(** The block identifiers of the images of index [i], ..., [i + n - 1]:
    the first of each image's three. *)
Definition guids (k i n : nat) : list string :=
  List.map (fun t => uuid4 (k + 3 * t)) (seq i n).

(** The loop of [replace_images] over the children, by name. *)
Fixpoint replace_images_list (k limit i : nat) (l : list node)
  : list node * nat :=
  match l with
  | [] => ([], i)
  | x :: r =>
      if is_img x then
        let x' := if Nat.ltb i limit
                  then placeholder (uuid4 (k + 3 * i))
                  else x in
        let (r', j) :=
          replace_images_list k limit
            (i + 1 + List.length (find_all is_img x)) r in
        (x' :: r', j)
      else
        let (x', i1) := replace_images k limit i x in
        let (r', j) := replace_images_list k limit i1 r in
        (x' :: r', j)
  end.

(** The outcome of [getSPPageCanvas]: the returned list ([None] when the
    function raises), the content as the call leaves it, and the number of
    identifiers drawn. *)
Record build : Type := {
  canvas : option (list json);
  content_after : node;
  next_uuid : nat
}.

(** [getSPPageCanvas].  The test [len(images) > 0] guards a loop that does
    nothing on an empty list. *)
Definition getSPPageCanvas (self : Importer) (k : nat) (content : node)
  : build :=
  let images := find_all is_img content in
  let '(blocks, k', ok) := image_blocks self k images in
  let content' := fst (replace_images k (List.length blocks) 0 content) in
  {| canvas :=
       if ok
       then Some (List.app blocks [rich_text_block (to_str content');
                                   settings_block])
       else None;
     content_after := content';
     next_uuid := k' |}.

End Build.

(** The [controlType] and [id] of a block. *)
Definition control_type (b : json) : option json := get "controlType" b.
Definition block_id (b : json) : option json := get "id" b.

(** The three identifiers of an image block: [id], [uniqueId] and the [id]
    of its properties. *)
Definition block_unique_id (b : json) : option json :=
  match get "webPartData" b with
  | Some d => match get "properties" d with
              | Some p => get "uniqueId" p
              | None => None
              end
  | None => None
  end.

Definition block_property_id (b : json) : option json :=
  match get "webPartData" b with
  | Some d => match get "properties" d with
              | Some p => get "id" p
              | None => None
              end
  | None => None
  end.

Definition inner_html (b : json) : option json := get "innerHTML" b.

(** The identifiers that a block takes from [uuid.uuid4()]: the three of an
    image block, none for the other blocks. *)
Definition drawn_ids (b : json) : list json :=
  match control_type b with
  | Some (JNum 3) =>
      omap (fun x => x) [block_id b; block_unique_id b; block_property_id b]
  | _ => []
  end.

(** A placeholder marker: a [div] whose [data-webpart-id] is [image]; it
    refers to the block named by its [data-instance-id]. *)
Definition marker_id (n : node) : option string :=
  match n with
  | NavigableString _ => None
  | Tag name a _ =>
      if String.eqb name "div" then
        match get_attr "data-webpart-id" a with
        | Some w => if String.eqb w "image"
                    then get_attr "data-instance-id" a
                    else None
        | None => None
        end
      else None
  end.

(** The identifiers that the markers below [n] refer to, in document
    order. *)
Definition markers (n : node) : list string :=
  omap marker_id (descendants n).



(** Every image has a [src]. *)
Definition has_src (x : node) : bool :=
  match get_attr "src" (node_attrs x) with
  | Some _ => true
  | None => false
  end.

Definition imgs_have_src (n : node) : bool :=
  forallb has_src (find_all is_img n).

(** A plain serialisation of a tree, for running the builder on examples:
    attributes in single quotes, no escaping. *)
Fixpoint render (n : node) : string :=
  match n with
  | NavigableString s => s
  | Tag name a c =>
      let inside :=
        (fix go (l : list node) : string :=
           match l with
           | [] => ""
           | x :: r => render x ++ go r
           end) c in
      if String.eqb name document_name then inside
      else "<" ++ name ++
           fold_right (fun kv acc => " " ++ fst kv ++ "='" ++ snd kv ++ "'" ++ acc)
                      "" a ++
           ">" ++ inside ++ "</" ++ name ++ ">"
  end.

End Canvas.

(** ** The local file system and the SharePoint site *)

Module World.
Import Html.

(** A local file holds either an HTML document, given by the tree that
    [BeautifulSoup(fp, "html.parser")] builds from it, or other data, which
    cannot be read as text with [encoding="utf-8"]. *)
Inductive file_content : Type :=
| Html (document : node)
| Data (bytes : string).

Inductive fs_entry : Type :=
| File (content : file_content)
| Directory.

(** [s.replace("/", "\\")]. *)
Fixpoint backslashes (s : string) : string :=
  match s with
  | EmptyString => EmptyString
  | String c r =>
      String (if Ascii.eqb c "/" then "\"%char else c) (backslashes r)
  end.

(** The name under which the file system knows [path]: on Windows both
    separators address the same file, and the entries are kept under their
    backslash form. *)
Definition fs_key (windows : bool) (path : string) : string :=
  if windows then backslashes path else path.

(** [os.path.exists] and [os.path.isfile]. *)
Definition exists_path (windows : bool) (fs : gmap string fs_entry)
  (path : string) : bool :=
  match fs !! fs_key windows path with Some _ => true | None => false end.

Definition isfile (windows : bool) (fs : gmap string fs_entry)
  (path : string) : bool :=
  match fs !! fs_key windows path with Some (File _) => true | _ => false end.

(** [open(path).read()]: [None] when [open] raises. *)
Definition read_file (windows : bool) (fs : gmap string fs_entry)
  (path : string) : option file_content :=
  match fs !! fs_key windows path with Some (File c) => Some c | _ => None end.

(** [os.rename(src, dst)]; [None] when it raises: for a missing source,
    for a destination that is a directory, and on Windows for any existing
    destination. *)
Definition rename (windows : bool) (fs : gmap string fs_entry)
  (src dst : string) : option (gmap string fs_entry) :=
  match fs !! fs_key windows src with
  | Some e =>
      match fs !! fs_key windows dst with
      | Some Directory => None
      | Some (File _) =>
          if windows then None
          else Some (<[fs_key windows dst := e]>
                       (delete (fs_key windows src) fs))
      | None => Some (<[fs_key windows dst := e]>
                        (delete (fs_key windows src) fs))
      end
  | None => None
  end.

(** The text before and after the last separator of [s]; [None] without
    one. *)
Fixpoint split_last (sep : ascii -> bool) (s : string)
  : option (string * string) :=
  match s with
  | EmptyString => None
  | String c r =>
      match split_last sep r with
      | Some (dir, base) => Some (String c dir, base)
      | None => if sep c then Some (EmptyString, r) else None
      end
  end.

Definition is_sep (windows : bool) (c : ascii) : bool :=
  Ascii.eqb c "/" || (windows && Ascii.eqb c "\").

(** [os.path.basename]. *)
Definition basename (windows : bool) (path : string) : string :=
  match split_last (is_sep windows) path with
  | Some (_, base) => base
  | None => path
  end.

(** [os.path.dirname] of a relative path without a drive: the text before
    the last separator. *)
Definition dirname (windows : bool) (path : string) : string :=
  match split_last (is_sep windows) path with
  | Some (dir, _) => dir
  | None => ""
  end.

Definition last_char (s : string) : option ascii :=
  match String.length s with
  | O => None
  | S n => String.get n s
  end.

(** [os.path.join(a, b)] for a [b] without a drive. *)
Definition path_join (windows : bool) (a b : string) : string :=
  match b with
  | String c _ =>
      if is_sep windows c then b
      else match last_char a with
           | None => b
           | Some e => if is_sep windows e then a ++ b
                       else a ++ (if windows then "\" else "/") ++ b
           end
  | EmptyString =>
      match last_char a with
      | None => ""
      | Some e => if is_sep windows e then a
                  else a ++ (if windows then "\" else "/")
      end
  end.

(** A file of a document library. *)
Record RemoteFile : Type := {
  name : string;
  serverRelativeUrl : string
}.

(** A site user: the [Title] and [Email] properties. *)
Record User : Type := {
  user_title : string;
  user_email : string
}.

(** A published page of the site: its identifier and title, the canvas
    of its last published draft, if one was saved with a canvas, and whether
    it is checked out. *)
Record SitePage : Type := {
  page_id : nat;
  page_title : string;
  page_canvas : option (list Canvas.json);
  page_checked_out : bool
}.

(** An item of the list [list_name]: its identifier, the URL of its file
    and its field values. *)
Record ListItem : Type := {
  item_id : nat;
  item_url : string;
  item_fields : gmap string string
}.

(** The site as the calls see it.  [round_trips] counts the calls to
    [execute_query] and [execute_batch]; the call number [n] raises when
    [fault n] holds.  [items] is the list behind [ll_list], newest first;
    when [list_is_site_pages] holds a published page adds an item to it.
    [uploads] records every [upload_file], latest last. *)
Record Site : Type := {
  fault : nat -> bool;
  round_trips : nat;
  site_users : list User;
  folders : gmap string (gmap string RemoteFile);
  uploads : list (string * string);
  pages : list SitePage;
  list_is_site_pages : bool;
  items : list ListItem
}.

Definition set_round_trips (s : Site) (n : nat) : Site :=
  {| fault := fault s; round_trips := n; site_users := site_users s;
     folders := folders s; uploads := uploads s; pages := pages s;
     list_is_site_pages := list_is_site_pages s; items := items s |}.

Definition set_folders (s : Site) (f : gmap string (gmap string RemoteFile))
  (u : list (string * string)) : Site :=
  {| fault := fault s; round_trips := round_trips s;
     site_users := site_users s; folders := f; uploads := u;
     pages := pages s; list_is_site_pages := list_is_site_pages s;
     items := items s |}.

Definition set_pages (s : Site) (p : list SitePage) (i : list ListItem)
  : Site :=
  {| fault := fault s; round_trips := round_trips s;
     site_users := site_users s; folders := folders s; uploads := uploads s;
     pages := p; list_is_site_pages := list_is_site_pages s; items := i |}.

(** One round trip: the site with the call counted, and whether the call
    went through. *)
Definition execute_query (s : Site) : Site * bool :=
  (set_round_trips s (S (round_trips s)), negb (fault s (round_trips s))).

End World.

(** ** The migration driver *)

Module Driver.
Import Html Rewriter Canvas World.

(** The dictionary that [add_attachments] returns: a status dictionary for
    each path. *)
Abbreviation status := (gmap string string).

Definition not_found_text : string :=
  "Not uploaded: File not found. Check the file name and try again".
Definition exists_text : string :=
  "Not uploaded: File exists and overwrite is set to false".
Definition completed_text : string := "File upload completed".
Definition failed_text : string := "Upload failed due to an error.".

(** [self.assets_folder + "/" + (page_folder or "")]. *)
Definition target_folder_path (self : Importer) (page_folder : option string)
  : string :=
  assets_folder self ++ "/" ++
  match page_folder with Some f => f | None => "" end.

(** [ensure_folder_path(path)]: the folder exists afterwards. *)
Definition ensure_folder (s : Site) (path : string) : Site :=
  match folders s !! path with
  | Some _ => s
  | None => set_folders s (<[path := ∅]> (folders s)) (uploads s)
  end.

(** The files of a folder, as a query answers. *)
Definition folder_files (s : Site) (folder : string)
  : gmap string RemoteFile :=
  match folders s !! folder with Some f => f | None => ∅ end.

(** [target_folder.upload_file(filename, content)]: the file is in the
    folder afterwards, under the URL the server gives it. *)
Definition upload_file (s : Site) (folder filename : string)
  : Site * RemoteFile :=
  let f := {| name := filename;
              serverRelativeUrl := folder ++ "/" ++ filename |} in
  (set_folders s (<[folder := <[filename := f]> (folder_files s folder)]>
                    (folders s))
     (List.app (uploads s) [(folder, filename)]),
   f).

(** The loop of [add_attachments]; [None] when an exception leaves it.
    A file found in the folder is skipped unless [overwrite] is set. *)
Fixpoint add_attachments_loop (self : Importer) (fs : gmap string fs_entry)
  (folder : string) (overwrite : bool) (files_to_add : list string)
  (s : Site) (result : gmap string status)
  : Site * option (gmap string status) :=
  match files_to_add with
  | [] => (s, Some result)
  | path :: rest =>
      let result := <[path := ∅]> result in
      if negb (exists_path (windows_path self) fs path) then
        add_attachments_loop self fs folder overwrite rest s
          (<[path := {[ "result" := not_found_text ]}]> result)
      else
        let filename := basename (windows_path self) path in
        let (s1, ok1) := execute_query s in
        if negb ok1 then (s1, None)
        else
          let found := folder_files s1 folder !! filename in
          match (if overwrite then None else found) with
          | Some file =>
              add_attachments_loop self fs folder overwrite rest s1
                (<[path := {[ "result" := exists_text;
                              "name" := name file;
                              "serverRelativeUrl" :=
                                serverRelativeUrl file ]}]> result)
          | None =>
              match read_file (windows_path self) fs path with
              | None => (s1, None)
              | Some _ =>
                  let (s2, ok2) := execute_query s1 in
                  if negb ok2 then (s2, None)
                  else
                    let (s3, target_file) :=
                      upload_file s2 folder filename in
                    add_attachments_loop self fs folder overwrite rest s3
                      (<[path := {[ "result" := completed_text;
                                    "name" := name target_file;
                                    "serverRelativeUrl" :=
                                      serverRelativeUrl target_file ]}]>
                         result)
              end
          end
  end.

(** The [try] block of [add_attachments]: the two calls that fetch the
    folder and its files, then the loop. *)
Definition add_attachments_try (self : Importer) (fs : gmap string fs_entry)
  (files_to_add : list string) (page_folder : option string)
  (overwrite : bool) (s : Site) : Site * option (gmap string status) :=
  let folder := target_folder_path self page_folder in
  let (s1, ok1) := execute_query s in
  if negb ok1 then (s1, None)
  else
    let s2 := ensure_folder s1 folder in
    let (s3, ok3) := execute_query s2 in
    if negb ok3 then (s3, None)
    else add_attachments_loop self fs folder overwrite files_to_add s3 ∅.

(** [add_attachments]: on an exception every path gets the failure
    status. *)
Definition add_attachments (self : Importer) (fs : gmap string fs_entry)
  (files_to_add : list string) (page_folder : option string)
  (overwrite : bool) (s : Site) : Site * gmap string status :=
  match add_attachments_try self fs files_to_add page_folder overwrite s with
  | (s', Some result) => (s', result)
  | (s', None) =>
      (s', list_to_map
             (List.map (fun file => (file, {[ "result" := failed_text ]}))
                       files_to_add))
  end.


(** The message that [logLinks] writes for a link. *)
Definition log_line (href text page_url : string) : string :=
  "Link: " ++ href ++ ". Text: " ++ text ++ ". URL: " ++ page_url ++ "  ".

(** The loop [for link in links: href = link["href"]]: the last link and
    its [href]; [None] when a link has no [href] and the loop raises, or
    when [links] is empty and [href] stays unbound. *)
Fixpoint last_href (links : list node) (seen : option (node * string))
  : option (node * string) :=
  match links with
  | [] => seen
  | link :: rest =>
      match get_attr "href" (node_attrs link) with
      | Some href => last_href rest (Some (link, href))
      | None => None
      end
  end.

(** [logLinks]: the messages of [logfile.log] after the call, and the
    returned flag.  The test on [href] follows the loop, it is not part of
    its body. *)
Definition logLinks (links : list node) (page_url : string)
  (log : list string) : list string * bool :=
  match last_href links None with
  | None => (log, false)
  | Some (link, href) =>
      if existsb (fun m => contains m href) ["html"] then
        (List.app log [log_line href (text link) page_url], true)
      else (log, true)
  end.

(** What the libraries provide: the identifiers of [uuid.uuid4()], the
    serialisation [str(tag)] and the way [find] treats a missing
    attribute. *)
Record Libraries : Type := {
  uuid4 : nat -> string;
  to_str : node -> string;
  none_matches_empty : bool
}.

(** [getSiteUser]: no call is made for an empty name, and an exception of
    the call is caught. *)
Definition getSiteUser (s : Site) (full_name : string) : Site * option User :=
  let full_name := strip full_name in
  if String.eqb full_name "" then (s, None)
  else
    let (s1, ok) := execute_query s in
    if negb ok then (s1, None)
    else (s1, List.find (fun u => String.eqb (user_title u) full_name)
                (site_users s1)).

(** [remove_elements] on the main content.  The elements of the given
    classes leave the tree; the model is for pages whose main content and
    attachment links are not themselves inside a removed element. *)
Definition remove_elements (main_content : node)
  (elements_to_remove : list string) : node :=
  fold_left (fun page cls => remove_class cls page) elements_to_remove
            main_content.

(** The loop of [uploadPageAttachment]: the paths to upload and the page
    folder; [None] for the [KeyError] of an attachment without [href]. *)
Fixpoint attachment_paths (self : Importer) (fs : gmap string fs_entry)
  (path : string) (attachments : list node) (attachments_arr : list string)
  (page_name : string) : option (list string * string) :=
  match attachments with
  | [] => Some (attachments_arr, page_name)
  | attachment :: rest =>
      match get_attr "href" (node_attrs attachment) with
      | None => None
      | Some attachment_file =>
          let file_name := path_join (windows_path self) path attachment_file in
          if isfile (windows_path self) fs file_name then
            attachment_paths self fs path rest
              (List.app attachments_arr
                 [if windows_path self then backslashes file_name
                  else file_name])
              (if String.eqb page_name ""
               then dirname (windows_path self) attachment_file
               else page_name)
          else attachment_paths self fs path rest attachments_arr page_name
      end
  end.

(** [uploadPageAttachment]: it catches every exception, so it returns. *)
Definition uploadPageAttachment (self : Importer) (fs : gmap string fs_entry)
  (path : string) (attachments : list node) (s : Site) : Site * bool :=
  match attachment_paths self fs path attachments [] "" with
  | None => (s, false)
  | Some ([], _) => (s, true)
  | Some (attachments_arr, page_name) =>
      (fst (add_attachments self fs attachments_arr (Some page_name) false s),
       true)
  end.

(** [update_item]: [false] when it raises.  The item is fetched, its fields
    are set and the batch is sent. *)
Definition update_item (s : Site) (id : nat) (params : list (string * string))
  : Site * bool :=
  let (s1, ok1) := execute_query s in
  if negb ok1 then (s1, false)
  else if negb (existsb (fun i => Nat.eqb (item_id i) id) (items s1))
  then (s1, false)
  else
    let (s2, ok2) := execute_query s1 in
    if negb ok2 then (s2, false)
    else
      (set_pages s2 (pages s2)
         (List.map
            (fun i =>
               if Nat.eqb (item_id i) id then
                 {| item_id := item_id i; item_url := item_url i;
                    item_fields :=
                      fold_left (fun f kv => <[fst kv := snd kv]> f) params
                                (item_fields i) |}
               else i)
            (items s2)),
       true).

(** The dictionary that [add_edit_page] returns. *)
Record PageInfo : Type := {
  info_id : nat;
  info_name : string;
  info_url : string
}.

(** How a call of [add_edit_page] ends. *)
Inductive page_outcome : Type :=
| Raised
| Returned (page : option PageInfo).

(** An identifier that no page and no item of the site has. *)
Definition fresh_id (s : Site) : nat :=
  S (fold_right Nat.max
       (fold_right Nat.max 0 (List.map item_id (items s)))
       (List.map page_id (pages s))).

(** The URL that the site gives the file of a page. *)
Definition page_file_url (title : string) : string :=
  "SitePages/" ++ title ++ ".aspx".

(** The site once [pages.add()], [save_draft(page_name)] and [publish()]
    went through: a new page without a content canvas, and its item when
    the list is the page library. *)
Definition publish_new_page (s : Site) (page_name : string) : Site * nat :=
  let id := fresh_id s in
  (set_pages s
     (List.app (pages s)
        [{| page_id := id; page_title := page_name; page_canvas := None;
            page_checked_out := false |}])
     (if list_is_site_pages s
      then {| item_id := id; item_url := page_file_url page_name;
              item_fields := ∅ |} :: items s
      else items s),
   id).

(** A change of the page [id]. *)
Definition update_page (s : Site) (id : nat) (f : SitePage -> SitePage)
  : Site :=
  set_pages s
    (List.map (fun p => if Nat.eqb (page_id p) id then f p else p) (pages s))
    (items s).

Definition checked_out (p : SitePage) : SitePage :=
  {| page_id := page_id p; page_title := page_title p;
     page_canvas := page_canvas p; page_checked_out := true |}.

Definition republished (title : string) (c : option (list json))
  (p : SitePage) : SitePage :=
  {| page_id := page_id p; page_title := title;
     page_canvas := match c with Some _ => c | None => page_canvas p end;
     page_checked_out := false |}.

(** The second half of [add_edit_page], after the list was queried:
    [item_page] is what the query returned.  [add_attachments] is given the
    integer [page_id] as its folder: for a non-zero identifier the
    concatenation of its first line raises inside its [try], before any
    call, and for zero [(page_folder or "")] is the empty string. *)
Definition attach_canvas (self : Importer) (fs : gmap string fs_entry)
  (s : Site) (site_page : nat) (page_name : string) (page_canvas : list json)
  (sp_fields : list (string * string)) (attachments : list string)
  (item_page : list ListItem) : Site * page_outcome :=
  match item_page with
  | [] => (s, Returned None)
  | data :: _ =>
      let (s1, ok1) := execute_query s in
      if negb ok1 then (s1, Raised)
      else
        let id := item_id data in
        let page_url := item_url data in
        let (s2, ok2) :=
          match sp_fields with
          | [] => (s1, true)
          | _ :: _ => update_item s1 id sp_fields
          end in
        if negb ok2 then (s2, Raised)
        else
          let s3 :=
            match attachments with
            | [] => s2
            | _ :: _ =>
                match id with
                | O => fst (add_attachments self fs attachments None false s2)
                | S _ => s2
                end
            end in
          let (s4, ok4) := execute_query s3 in
          if negb ok4 then (s4, Raised)
          else
            let s5 := update_page s4 site_page checked_out in
            let (s6, ok6) := execute_query s5 in
            if negb ok6 then (s6, Raised)
            else
              (update_page s6 site_page
                 (republished page_name (Some page_canvas)),
               Returned (Some {| info_id := id; info_name := page_name;
                                 info_url := page_url |}))
  end.

(** [add_edit_page].  The title area of the first draft is made of
    [page_name] and the author's properties; it does not decide how the
    call ends and is not kept in [SitePage]. *)
Definition add_edit_page (self : Importer) (fs : gmap string fs_entry)
  (s : Site) (page_name : string) (page_canvas : list json)
  (author : option User) (sp_fields : list (string * string))
  (attachments : list string) (page_id_arg : option nat)
  : Site * page_outcome :=
  match page_id_arg with
  | Some id =>
      let (s1, ok1) := execute_query s in
      if negb ok1 then (s1, Raised)
      else if negb (existsb (fun p => Nat.eqb (page_id p) id) (pages s1))
      then (s1, Returned None)
      else
        let (s2, ok2) := execute_query s1 in
        if negb ok2 then (s2, Raised)
        else
          let s3 := update_page s2 id checked_out in
          let (s4, ok4) := execute_query s3 in
          if negb ok4 then (s4, Raised)
          else
            let s5 := update_page s4 id (republished page_name None) in
            let (s6, ok6) := execute_query s5 in
            if negb ok6 then (s6, Raised)
            else
              attach_canvas self fs s6 id page_name page_canvas sp_fields
                attachments
                (List.filter (fun i => Nat.eqb (item_id i) id) (items s6))
  | None =>
      let (s1, ok1) := execute_query s in
      if negb ok1 then (s1, Raised)
      else
        let (s2, id) := publish_new_page s1 page_name in
        let (s3, ok3) := execute_query s2 in
        if negb ok3 then (s3, Raised)
        else
          attach_canvas self fs s3 id page_name page_canvas sp_fields
            attachments (firstn 1 (items s3))
  end.


(** What a run works on: the local files, the site, the messages of
    [logfile.log] and the number of identifiers drawn from [uuid4]. *)
Record State : Type := {
  st_fs : gmap string fs_entry;
  st_site : Site;
  st_log : list string;
  st_uuid : nat
}.

(** How the body of the loop over the index ends for one entry: the loop
    goes on to the next entry, or an exception leaves it. *)
Inductive step : Type :=
| Next (st : State)
| Exception (st : State).

(** The part of the loop body after the test for empty content. *)
Definition migrate_page (lib : Libraries) (self : Importer) (path : string)
  (sp_fields : list (string * string)) (elements_to_remove : list string)
  (page_name page_file : string) (page_soup main_content : node)
  (st : State) : step :=
  let attachments :=
    select [by_name_class "div" "pageSection"; by_class "greybox"]
           (by_name "a") page_soup in
  let page_author_name :=
    match select_one [] (by_class "author") page_soup with
    | Some page_author => text page_author
    | None => ""
    end in
  let (s1, user) := getSiteUser (st_site st) page_author_name in
  let main_content :=
    match elements_to_remove with
    | [] => main_content
    | _ :: _ => remove_elements main_content elements_to_remove
    end in
  let s2 :=
    match attachments with
    | [] => s1
    | _ :: _ => fst (uploadPageAttachment self (st_fs st) path attachments s1)
    end in
  let main_content := fix_paths_in self main_content in
  let (main_content, anchors_ok) :=
    fixAnchors (none_matches_empty lib) (find_all is_link main_content)
               main_content in
  if negb anchors_ok then
    Exception {| st_fs := st_fs st; st_site := s2; st_log := st_log st;
                 st_uuid := st_uuid st |}
  else
    let b := getSPPageCanvas (uuid4 lib) (to_str lib) self (st_uuid st)
               main_content in
    match canvas b with
    | None =>
        Exception {| st_fs := st_fs st; st_site := s2; st_log := st_log st;
                     st_uuid := next_uuid b |}
    | Some page_canvas =>
        let main_content := content_after b in
        match add_edit_page self (st_fs st) s2 page_name page_canvas user
                sp_fields [] None with
        | (s3, Raised) =>
            Exception {| st_fs := st_fs st; st_site := s3;
                         st_log := st_log st; st_uuid := next_uuid b |}
        | (s3, Returned page) =>
            let links := find_all is_link main_content in
            let logged :=
              match links with
              | [] => Some (st_log st)
              | _ :: _ =>
                  match page with
                  | Some info =>
                      Some (fst (logLinks links (info_url info) (st_log st)))
                  | None => None
                  end
              end in
            match logged with
            | None =>
                Exception {| st_fs := st_fs st; st_site := s3;
                             st_log := st_log st; st_uuid := next_uuid b |}
            | Some log =>
                match rename (windows_path self) (st_fs st)
                        (path ++ page_file)
                        (path ++ page_file ++ "_complete") with
                | Some fs' =>
                    Next {| st_fs := fs'; st_site := s3; st_log := log;
                            st_uuid := next_uuid b |}
                | None =>
                    Exception {| st_fs := st_fs st; st_site := s3;
                                 st_log := log; st_uuid := next_uuid b |}
                end
            end
        end
    end.

(** The body of [for page in pageSection]. *)
Definition process_page (lib : Libraries) (self : Importer) (path : string)
  (sp_fields : list (string * string)) (elements_to_remove : list string)
  (page : node) (st : State) : step :=
  match select_one [] (by_name "a") page with
  | None => Exception st
  | Some page_link =>
      let page_title := normalize_ws (text page_link) in
      let page_name := page_title in
      match get_attr "href" (node_attrs page_link) with
      | None => Exception st
      | Some page_file =>
          if isfile (windows_path self) (st_fs st) (path ++ page_file) then
            match read_file (windows_path self) (st_fs st)
                    (path ++ page_file) with
            | Some (Html page_soup) =>
                match select_one [] (by_id "main-content") page_soup with
                | None => Exception st
                | Some main_content =>
                    if Nat.eqb (List.length (node_contents main_content)) 0
                       || Nat.eqb (String.length (rstrip (text main_content)))
                                  0
                    then Next st
                    else migrate_page lib self path sp_fields
                           elements_to_remove page_name page_file page_soup
                           main_content st
                end
            | _ => Exception st
            end
          else Next st
      end
  end.

(** The loop over the entries of the index: the state it ends in, and
    whether it ended without an exception. *)
Fixpoint process_pages (lib : Libraries) (self : Importer) (path : string)
  (sp_fields : list (string * string)) (elements_to_remove : list string)
  (pageSection : list node) (st : State) : State * bool :=
  match pageSection with
  | [] => (st, true)
  | page :: rest =>
      match process_page lib self path sp_fields elements_to_remove page st
      with
      | Next st' =>
          process_pages lib self path sp_fields elements_to_remove rest st'
      | Exception st' => (st', false)
      end
  end.

(** The entries of the index: [soup.select(".pageSection li")]. *)
Definition index_entries (soup : node) : list node :=
  select [by_class "pageSection"] (by_name "li") soup.

(** [parse_confluence_HTML]: the state after the run and the returned
    value, [True] after the loop and [False] from either handler.  The
    branch for a canvas that is [None] is never taken, as
    [getSPPageCanvas] returns a list or raises. *)
Definition parse_confluence_HTML (lib : Libraries) (self : Importer)
  (path : string) (sp_fields : list (string * string))
  (elements_to_remove : list string) (st : State) : State * bool :=
  if negb (exists_path (windows_path self) (st_fs st) path)
     || negb (isfile (windows_path self) (st_fs st) (path ++ "index.html"))
  then (st, false)
  else
    match read_file (windows_path self) (st_fs st) (path ++ "index.html") with
    | Some (Html soup) =>
        let pageInfo := select [by_class "confluenceTable"] (by_name "td")
                          soup in
        match pageInfo with
        | [_] => (st, false)
        | _ =>
            let css_path :=
              if windows_path self then path ++ "styles\site.css"
              else path ++ "styles/site.css" in
            if exists_path (windows_path self) (st_fs st) css_path
               && negb (isfile (windows_path self) (st_fs st) css_path)
            then (st, false)
            else process_pages lib self path sp_fields elements_to_remove
                   (index_entries soup) st
        end
    | _ => (st, false)
    end.


(** The pages and the fault plan of the site are the same in [s'] as in
    [s]. *)
Definition same_pages (s s' : Site) : Prop :=
  fault s' = fault s /\ pages s' = pages s.

End Driver.

(** ** Sample data *)

Module Examples.
Import Html Rewriter Canvas World Driver.

Definition example_importer : Importer :=
  {| base_url := "https://contoso.sharepoint.com/sites/wiki";
     assets_folder := "SiteAssets";
     windows_path := false;
     site_id := "site-1";
     web_id := "web-1";
     list_id := "list-1" |}.

(** An attachment link and an embedded image, as Confluence exports
    them. *)
Definition example_attachments : list node :=
  [Tag "a" [("href", "attachments/42/report.pdf");
            ("data-linked-resource-type", "attachment")]
     [NavigableString "report.pdf"];
   Tag "img" [("src", "attachments/42/logo.png");
              ("data-linked-resource-type", "attachment")] []].


(** The same page with a heading of level three, and a link to a fragment
    that no heading carries. *)
Definition example_h3_page : node :=
  Tag "div" [("id", "main-content")]
    [Tag "h3" [("id", "x")] [NavigableString "  Overview "];
     Tag "p" [] [Tag "a" [("href", "#x")] [NavigableString "jump"];
                 Tag "a" [("href", "#nowhere")] [NavigableString "lost"]]].

(** An identifier source that never repeats: [uuid-] and a run of [k+1]
    marks. *)
Fixpoint marks (k : nat) : string :=
  match k with
  | O => "i"
  | S k' => String "i" (marks k')
  end.

Definition example_uuid4 (k : nat) : string := "uuid-" ++ marks k.

(** A page with two images and a page with none. *)
Definition example_image_page : node :=
  Tag "div" [("id", "main-content")]
    [Tag "p" [] [NavigableString "Before";
                 Tag "img" [("src", "https://contoso/a.png")] []];
     Tag "img" [("src", "https://contoso/b.png"); ("alt", "b")] [];
     NavigableString "After"].

Definition example_text_page : node :=
  Tag "div" [("id", "main-content")] [Tag "p" [] [NavigableString "Hello"]].

(** A page whose image has no [src]. *)
Definition example_broken_image_page : node :=
  Tag "div" [("id", "main-content")]
    [Tag "p" [] [NavigableString "Logo"; Tag "img" [("alt", "logo")] []]].

(** A site that answers every call, with one file already in the assets
    folder of page 42. *)
Definition example_site : Site :=
  {| fault := fun _ => false;
     round_trips := 0;
     site_users := [{| user_title := "Ada Lovelace";
                       user_email := "ada@contoso.com" |}];
     folders :=
       {[ "SiteAssets/attachments/42" :=
            {[ "logo.png" :=
                 {| name := "logo.png";
                    serverRelativeUrl :=
                      "SiteAssets/attachments/42/logo.png" |} ]} ]};
     uploads := [];
     pages := [];
     list_is_site_pages := true;
     items := [] |}.

(** The local export: two attachments of page 42. *)
Definition example_attachment_files : gmap string fs_entry :=
  {[ "export/attachments/42/logo.png" := File (Data "new logo");
     "export/attachments/42/report.pdf" := File (Data "report") ]}.

(** Two links to other pages of the export. *)
Definition example_links : list node :=
  [Tag "a" [("href", "install.html")] [NavigableString "Install"];
   Tag "a" [("href", "setup.html")] [NavigableString "Setup"]].

(** An export of two pages, [Intro] and [Setup], without authors,
    attachments, images or links. *)
Definition example_libraries : Libraries :=
  {| uuid4 := example_uuid4; to_str := render; none_matches_empty := true |}.

Definition example_entry (file title : string) : node :=
  Tag "li" [] [Tag "a" [("href", file)] [NavigableString title]].

Definition example_index : node :=
  Tag document_name []
    [Tag "div" [("class", "pageSection")]
       [Tag "ul" []
          [example_entry "intro.html" "Intro";
           example_entry "setup.html" "Setup"]]].

Definition example_page (body : string) : node :=
  Tag document_name []
    [Tag "div" [("id", "main-content")]
       [Tag "p" [] [NavigableString body]]].

(** A page without the main-content container. *)
Definition example_page_without_main : node :=
  Tag document_name []
    [Tag "div" [("id", "content")] [Tag "p" [] [NavigableString "Welcome"]]].

Definition example_export (intro : node) : gmap string fs_entry :=
  {[ "export/" := Directory;
     "export/index.html" := File (Html example_index);
     "export/intro.html" := File (Html intro);
     "export/setup.html" := File (Html (example_page "Run setup")) ]}.

Definition empty_site (faults : nat -> bool) (page_library : bool) : Site :=
  {| fault := faults;
     round_trips := 0;
     site_users := [];
     folders := ∅;
     uploads := [];
     pages := [];
     list_is_site_pages := page_library;
     items := [] |}.

Definition example_state (intro : node) (faults : nat -> bool)
  (page_library : bool) : State :=
  {| st_fs := example_export intro;
     st_site := empty_site faults page_library;
     st_log := [];
     st_uuid := 0 |}.

(** The run over the export. *)
Definition example_run (intro : node) (faults : nat -> bool)
  (page_library : bool) : State * bool :=
  parse_confluence_HTML example_libraries example_importer "export/" [] []
    (example_state intro faults page_library).

End Examples.

(** ** Further notions for the properties of the functions *)

Module Notions.
Import Html Rewriter Canvas World Driver.

(** Whether [fixAttachmentsPath] can rewrite an element: a link needs an
    [href] and an image a [src]. *)
Definition rewritable (n : node) : bool :=
  match n with
  | NavigableString _ => true
  | Tag name a _ =>
      if String.eqb name "a" then
        match get_attr "href" a with Some _ => true | None => false end
      else if String.eqb name "img" then
        match get_attr "src" a with Some _ => true | None => false end
      else true
  end.

(** A link that [fixAnchors] passes over: it has an [href] that does not
    start with [#]. *)
Definition plain_link (link : node) : bool :=
  match get_attr "href" (node_attrs link) with
  | Some href => negb (starts_with_hash href)
  | None => false
  end.

(** The source of the image of a block: the [imageSource] of the
    [imageSources] of its processed content. *)
Definition image_source (b : json) : option json :=
  match get "webPartData" b with
  | Some d =>
      match get "serverProcessedContent" d with
      | Some p =>
          match get "imageSources" p with
          | Some s => get "imageSource" s
          | None => None
          end
      | None => None
      end
  | None => None
  end.

(** The [src] of an element. *)
Definition src_of (n : node) : option string :=
  get_attr "src" (node_attrs n).

(** The element has an [href]. *)
Definition has_href (n : node) : bool :=
  match get_attr "href" (node_attrs n) with
  | Some _ => true
  | None => false
  end.

(** The paths of [done] that exist locally have a status that carries the
    descriptor of the file that the folder holds under their name; with
    [overwrite] on, that file is the one an upload gives. *)
Definition reported (self : Importer) (fs : gmap string fs_entry)
  (folder : string) (overwrite : bool) (s : Site)
  (result : gmap string status) (done : list string) : Prop :=
  forall p, In p done ->
    exists_path (windows_path self) fs p = true ->
    exists f st,
      folder_files s folder !! basename (windows_path self) p = Some f /\
      result !! p = Some st /\
      st !! "name" = Some (name f) /\
      st !! "serverRelativeUrl" = Some (serverRelativeUrl f) /\
      (overwrite = true ->
       f = {| name := basename (windows_path self) p;
              serverRelativeUrl :=
                folder ++ "/" ++ basename (windows_path self) p |}).

(** The path that [uploadPageAttachment] hands over for the attachment
    file [attachment_file] of the export at [path]. *)
Definition upload_path (self : Importer) (path attachment_file : string)
  : string :=
  if windows_path self
  then backslashes (path_join (windows_path self) path attachment_file)
  else path_join (windows_path self) path attachment_file.

(** An attachment link whose file is not a local file. *)
Definition not_local (self : Importer) (fs : gmap string fs_entry)
  (path : string) (attachment : node) : bool :=
  match get_attr "href" (node_attrs attachment) with
  | Some attachment_file =>
      negb (isfile (windows_path self) fs
              (path_join (windows_path self) path attachment_file))
  | None => false
  end.

(** The change [f] of the page [id], and no change of the others. *)
Definition at_page (id : nat) (f : SitePage -> SitePage) (p : SitePage)
  : SitePage :=
  if Nat.eqb (page_id p) id then f p else p.

(** The outcome of [add_edit_page] is the dictionary of a page. *)
Definition is_page (o : page_outcome) : bool :=
  match o with
  | Returned (Some _) => true
  | _ => false
  end.

(** The loop of [remove_class] over the children, by name. *)
Fixpoint remove_class_list (cls : string) (l : list node) : list node :=
  match l with
  | [] => []
  | x :: r =>
      if is_tag x && has_class cls x then remove_class_list cls r
      else remove_class cls x :: remove_class_list cls r
  end.

(** Class names for which [select("." + name)] is the selector of the
    class: a letter or an underscore, then letters, digits, hyphens and
    underscores. *)
Definition is_letter (c : ascii) : bool :=
  let n := nat_of_ascii c in
  (Nat.leb 65 n && Nat.leb n 90) || (Nat.leb 97 n && Nat.leb n 122)
  || Nat.eqb n 95.

Definition is_name_char (c : ascii) : bool :=
  let n := nat_of_ascii c in
  is_letter c || (Nat.leb 48 n && Nat.leb n 57) || Nat.eqb n 45.

Fixpoint all_chars (p : ascii -> bool) (s : string) : bool :=
  match s with
  | EmptyString => true
  | String c r => p c && all_chars p r
  end.

Definition plain_name (s : string) : bool :=
  match s with
  | EmptyString => false
  | String c r => is_letter c && all_chars is_name_char r
  end.

(** The state in which the body of the loop ends. *)
Definition state_of (r : step) : State :=
  match r with
  | Next st => st
  | Exception st => st
  end.

(** The tree without its attributes: the tags, the strings and their
    nesting. *)
Fixpoint shape (n : node) : node :=
  match n with
  | NavigableString _ => n
  | Tag name _ c => Tag name [] (List.map shape c)
  end.

(** The attribute dictionaries of the elements [l] after those that satisfy
    [p] were given the dictionaries [new], one each in order. *)
Fixpoint assign (p : node -> bool) (new : list attrs) (l : list node)
  : list attrs :=
  match l with
  | [] => []
  | x :: r =>
      if p x then
        match new with
        | a' :: rest => a' :: assign p rest r
        | [] => node_attrs x :: assign p [] r
        end
      else node_attrs x :: assign p new r
  end.

(** [is_attachment] on the attribute dictionary. *)
Definition attachment_attrs (a : attrs) : bool :=
  match get_attr "data-linked-resource-type" a with
  | Some v => String.eqb v "attachment"
  | None => false
  end.

End Notions.

(** ** More sample data *)

Module MoreExamples.
Import Html Rewriter Canvas World Driver Examples.

(** A link, an image without [src] and another link, all attachments. *)
Definition example_broken_attachments : list node :=
  [Tag "a" [("href", "attachments/42/report.pdf");
            ("data-linked-resource-type", "attachment")] [];
   Tag "img" [("alt", "logo");
              ("data-linked-resource-type", "attachment")] [];
   Tag "a" [("href", "attachments/42/notes.txt");
            ("data-linked-resource-type", "attachment")] []].

(** A page whose heading holds an image and is the target of a link. *)
Definition example_heading_image_page : node :=
  Tag "div" [("id", "main-content")]
    [Tag "h3" [("id", "logo")]
       [NavigableString " Our logo ";
        Tag "img" [("src", "attachments/42/logo.png")] []];
     Tag "p" [] [Tag "a" [("href", "#logo")] [NavigableString "see logo"];
                 Tag "img" [("src", "attachments/42/photo.png")] []]].

(** The site of the examples with another fault plan. *)
Definition example_site_failing (faults : nat -> bool) : Site :=
  {| fault := faults;
     round_trips := round_trips example_site;
     site_users := site_users example_site;
     folders := folders example_site;
     uploads := uploads example_site;
     pages := pages example_site;
     list_is_site_pages := list_is_site_pages example_site;
     items := items example_site |}.

(** The attachment links of page 42: a report, and a file that the export
    does not hold. *)
Definition example_attachment_links : list node :=
  [Tag "a" [("href", "attachments/42/report.pdf")]
     [NavigableString "report.pdf"];
   Tag "a" [("href", "attachments/42/missing.png")]
     [NavigableString "missing.png"]].


End MoreExamples.
(** ** Properties of attribute dictionaries *)

Section AttrFacts.
Import Html.

Lemma get_set_attr_same (k v : string) (a : attrs) :
  get_attr k (set_attr k v a) = Some v.
Proof.
  induction a as [|[k' v'] a IH]; simpl.
  - now rewrite String.eqb_refl.
  - destruct (String.eqb k' k) eqn:E; simpl; rewrite E; auto.
Qed.

Lemma get_set_attr_other (k k' v : string) (a : attrs) :
  k <> k' -> get_attr k' (set_attr k v a) = get_attr k' a.
Proof.
  intros Hne. induction a as [|[k0 v0] a IH]; simpl.
  - destruct (String.eqb k k') eqn:E; auto.
    apply String.eqb_eq in E. contradiction.
  - destruct (String.eqb k0 k) eqn:E; simpl.
    + apply String.eqb_eq in E. subst k0.
      destruct (String.eqb k k') eqn:E'; auto.
      apply String.eqb_eq in E'. contradiction.
    + now rewrite IH.
Qed.

End AttrFacts.

(** ** Attachment paths *)

Section AttachmentFacts.
Import Html Rewriter Examples.

(** What one successful iteration does to an element, by tag name. *)
Lemma fix_attachment_shape (self : Importer) (n n' : node) :
  fix_attachment self n = Some n' ->
  match n with
  | NavigableString _ => n' = n
  | Tag name a c =>
      (name = "a" /\
       exists h, get_attr "href" a = Some h /\
                 n' = Tag name (set_attr "href" (prefixed self h) a) c)
      \/ (name = "img" /\
          exists s, get_attr "src" a = Some s /\
                    n' = Tag name
                           (set_attr "href" (prefixed self s)
                              (set_attr "src" (prefixed self s) a)) c)
      \/ (name <> "a" /\ name <> "img" /\ n' = n)
  end.
Proof.
  destruct n as [s|name a c]; simpl.
  - intros [= <-]. reflexivity.
  - destruct (String.eqb_spec name "a") as [->|Ha].
    + destruct (get_attr "href" a) as [h|] eqn:Eh; [|discriminate].
      intros [= <-]. left. split; [reflexivity|]. eauto.
    + destruct (String.eqb_spec name "img") as [->|Hi].
      * destruct (get_attr "src" a) as [s|] eqn:Es; [|discriminate].
        intros [= <-]. right; left. split; [reflexivity|]. eauto.
      * intros [= <-]. right; right. auto.
Qed.




(** C2, as stated, fails: a second call prefixes the [href] again. *)
Lemma fixAttachmentsPath_second_call_changes :
  fst (fixAttachmentsPath example_importer
         (fst (fixAttachmentsPath example_importer example_attachments)))
  <> fst (fixAttachmentsPath example_importer example_attachments).
Proof. vm_compute. discriminate. Qed.

(** C2, amended: there is no guard against rewriting twice.  When a call
    returns [True], a second call on the same elements returns [True] too
    and prefixes once more: a link's [href], and an image's [src] and
    [href], end as the main path, a slash, the main path, a slash and the
    original value. *)
Theorem fixAttachmentsPath_twice_prefixes_twice (self : Importer)
  (atts atts1 : list node) :
  fixAttachmentsPath self atts = (atts1, true) ->
  exists atts2,
    fixAttachmentsPath self atts1 = (atts2, true) /\
    forall (i : nat) (name : string) (a : attrs) (c : list node),
      atts !! i = Some (Tag name a c) ->
      exists a2,
        atts2 !! i = Some (Tag name a2 c) /\
        (name = "a" ->
         exists h, get_attr "href" a = Some h /\
           get_attr "href" a2
           = Some (main_path self ++ "/" ++ main_path self ++ "/" ++ h)) /\
        (name = "img" ->
         exists s, get_attr "src" a = Some s /\
           get_attr "src" a2
           = Some (main_path self ++ "/" ++ main_path self ++ "/" ++ s) /\
           get_attr "href" a2
           = Some (main_path self ++ "/" ++ main_path self ++ "/" ++ s)).
Proof.
  revert atts1. induction atts as [|x r IH]; intros atts1 Hrun.
  - injection Hrun as <-. exists []. split; [reflexivity|].
    intros i ? ? ? Hi. discriminate.
  - simpl in Hrun.
    destruct (fix_attachment self x) as [x1|] eqn:Ex; [|discriminate].
    destruct (fixAttachmentsPath self r) as [r1 ok] eqn:Er.
    injection Hrun as <- ->.
    destruct (IH r1 eq_refl) as (r2 & Hr2 & Hall).
    assert (Hx : exists x2, fix_attachment self x1 = Some x2 /\
              forall name a c, x = Tag name a c ->
              exists a2, x2 = Tag name a2 c /\
                (name = "a" ->
                 exists h, get_attr "href" a = Some h /\
                   get_attr "href" a2
                   = Some (main_path self ++ "/" ++ main_path self ++ "/" ++ h)) /\
                (name = "img" ->
                 exists s, get_attr "src" a = Some s /\
                   get_attr "src" a2
                   = Some (main_path self ++ "/" ++ main_path self ++ "/" ++ s) /\
                   get_attr "href" a2
                   = Some (main_path self ++ "/" ++ main_path self ++ "/" ++ s))).
    { pose proof (fix_attachment_shape _ _ _ Ex) as Hs.
      destruct x as [t|name a c].
      - subst x1. exists (NavigableString t). split; [reflexivity|].
        intros ? ? ? [=].
      - destruct Hs as [[-> (h & Hh & ->)]|[[-> (s & Hs & ->)]|(Ha & Hi & ->)]].
        + simpl. rewrite get_set_attr_same. eexists. split; [reflexivity|].
          intros ? ? ? [= <- <- <-]. eexists. split; [reflexivity|].
          split; [|discriminate].
          intros _. exists h. split; [assumption|].
          rewrite get_set_attr_same. reflexivity.
        + simpl. rewrite get_set_attr_other by discriminate.
          rewrite get_set_attr_same. eexists. split; [reflexivity|].
          intros ? ? ? [= <- <- <-]. eexists. split; [reflexivity|].
          split; [discriminate|].
          intros _. exists s. split; [assumption|]. split.
          * rewrite get_set_attr_other by discriminate.
            rewrite get_set_attr_same. reflexivity.
          * rewrite get_set_attr_same. reflexivity.
        + simpl. apply String.eqb_neq in Ha, Hi. rewrite Ha, Hi.
          eexists. split; [reflexivity|].
          intros ? ? ? [= <- <- <-]. eexists. split; [reflexivity|].
          apply String.eqb_neq in Ha, Hi. split; intros; contradiction. }
    destruct Hx as (x2 & Hx2 & Hshape).
    exists (x2 :: r2). split.
    + simpl. rewrite Hx2, Hr2. reflexivity.
    + intros [|i] name a c Hi; simpl in Hi |- *.
      * injection Hi as ->.
        destruct (Hshape _ _ _ eq_refl) as (a2 & -> & H1 & H2).
        exists a2. auto.
      * eapply Hall; eauto.
Qed.

Lemma fixAttachmentsPath_twice_prefixes_twice_witness :
  exists atts2,
    fixAttachmentsPath example_importer
      (fst (fixAttachmentsPath example_importer example_attachments))
    = (atts2, true).
Proof.
  destruct (fixAttachmentsPath_twice_prefixes_twice example_importer
              example_attachments _ eq_refl) as (atts2 & H2 & _).
  exists atts2. exact H2.
Defined.

End AttachmentFacts.

(** ** Trees *)

Section TreeFacts.
Import Html Rewriter.

(** Induction on a tree with the hypothesis for every child. *)
Lemma node_rect_children (P : node -> Prop) :
  (forall s, P (NavigableString s)) ->
  (forall name a c, Forall P c -> P (Tag name a c)) ->
  forall n, P n.
Proof.
  intros Hs Ht.
  fix IH 1. intros [s|name a c].
  - apply Hs.
  - apply Ht. induction c as [|x r IHr]; constructor; [apply IH|apply IHr].
Qed.

Lemma descendants_tag (name : string) (a : attrs) (c : list node) :
  descendants (Tag name a c) = descendants_list c.
Proof.
  unfold descendants_list. simpl.
  induction c as [|x r IH]; simpl; [reflexivity|].
  now rewrite IH.
Qed.

Lemma text_tag (name : string) (a : attrs) (c : list node) :
  text (Tag name a c) = text_list c.
Proof.
  unfold text_list. simpl.
  induction c as [|x r IH]; simpl; [reflexivity|].
  now rewrite IH.
Qed.

Lemma replace_first_tag p f (name : string) (a : attrs) (c : list node) :
  replace_first p f (Tag name a c)
  = option_map (Tag name a) (replace_first_list p f c).
Proof.
  simpl. f_equal.
  induction c as [|x r IH]; simpl; [reflexivity|].
  now rewrite IH.
Qed.

Lemma find_app_list {A} (p : A -> bool) (l1 l2 : list A) :
  List.find p (List.app l1 l2)
  = match List.find p l1 with
    | Some x => Some x
    | None => List.find p l2
    end.
Proof.
  induction l1 as [|x r IH]; simpl; [reflexivity|].
  destruct (p x); auto.
Qed.

Lemma apart_nil_r (p : list nat) : ~ apart p [].
Proof. intros [_ H]. apply H. exists p. reflexivity. Qed.

Lemma apart_cons_same (i : nat) (p q : list nat) :
  apart (i :: p) (i :: q) -> apart p q.
Proof.
  intros [H1 H2]. split; intros [r ->].
  - apply H1. exists r. reflexivity.
  - apply H2. exists r. reflexivity.
Qed.

(** What [replace_first] does, by positions: nothing when [find] has no
    match; otherwise [f] is applied at a position that held the match of
    [find], and the positions apart from it keep their nodes. *)
Lemma replace_first_spec (p : node -> bool) (f : node -> node) (n : node) :
  match find p n with
  | None => replace_first p f n = None
  | Some x =>
      exists path n',
        replace_first p f n = Some n' /\
        node_at n path = Some x /\
        node_at n' path = Some (f x) /\
        path <> [] /\
        forall q, apart path q -> node_at n' q = node_at n q
  end.
Proof.
  unfold find.
  induction n as [s|name a c IH] using node_rect_children; [reflexivity|].
  rewrite descendants_tag, replace_first_tag.
  assert (H : match List.find p (descendants_list c) with
              | None => replace_first_list p f c = None
              | Some x =>
                  exists i path c',
                    replace_first_list p f c = Some c' /\
                    node_at (Tag name a c) (i :: path) = Some x /\
                    node_at (Tag name a c') (i :: path) = Some (f x) /\
                    forall q, apart (i :: path) q ->
                      node_at (Tag name a c') q = node_at (Tag name a c) q
              end).
  { induction c as [|x r IHr]; [reflexivity|].
    apply Forall_cons in IH as [Hx Hr]. specialize (IHr Hr).
    unfold descendants_list in *. simpl.
    destruct (p x) eqn:Epx.
    - exists 0, [], (f x :: r). repeat split; auto.
      intros [|[|j] q] Hq.
      + now apply apart_nil_r in Hq.
      + exfalso. destruct Hq as [Hq _]. apply Hq. exists q. reflexivity.
      + reflexivity.
    - rewrite find_app_list.
      destruct (List.find p (descendants x)) as [y|] eqn:Ey.
      + destruct Hx as (path & x' & Hrep & Hat & Hat' & _ & Hapart).
        rewrite Hrep. exists 0, path, (x' :: r). repeat split; auto.
        intros [|[|j] q] Hq.
        * now apply apart_nil_r in Hq.
        * simpl. apply Hapart. eapply apart_cons_same; eauto.
        * reflexivity.
      + rewrite Hx.
        destruct (List.find p (flat_map (fun x0 => x0 :: descendants x0) r))
          as [y|] eqn:Er.
        * destruct IHr as (i & path & r' & Hrep & Hat & Hat' & Hapart).
          rewrite Hrep. exists (S i), path, (x :: r'). repeat split; auto.
          intros [|[|j] q] Hq.
          -- now apply apart_nil_r in Hq.
          -- reflexivity.
          -- apply (Hapart (j :: q)).
             destruct Hq as [H1 H2]. split; intros [t Ht].
             ++ apply H1. exists t. injection Ht as -> ->. reflexivity.
             ++ apply H2. exists t. injection Ht as -> ->. reflexivity.
        * rewrite IHr. reflexivity. }
  destruct (List.find p (descendants_list c)) as [y|].
  - destruct H as (i & path & c' & Hrep & Hat & Hat' & Hapart).
    rewrite Hrep. exists (i :: path), (Tag name a c'). repeat split; auto.
  - rewrite H. reflexivity.
Qed.

End TreeFacts.

(** ** Anchors *)

Section AnchorFacts.
Import Html Rewriter Examples.


Lemma find_some_holds {A} (p : A -> bool) (l : list A) (x : A) :
  List.find p l = Some x -> p x = true.
Proof. intros H. now apply List.find_some in H. Qed.




End AnchorFacts.

(** ** The canvas *)

Section CanvasFacts.
Import Html Rewriter Canvas Examples.

Variable uuid4 : nat -> string.
Variable to_str : node -> string.

Lemma replace_images_tag (k limit i : nat) (name : string) (a : attrs)
  (c : list node) :
  replace_images uuid4 k limit i (Tag name a c)
  = let (c', j) := replace_images_list uuid4 k limit i c in (Tag name a c', j).
Proof.
  simpl.
  match goal with
  | |- (let (_, _) := ?lhs in _) = (let (_, _) := ?rhs in _) =>
      assert (E : lhs = rhs)
  end.
  { revert i. induction c as [|x r IH]; intros i; simpl; [reflexivity|].
    destruct (is_img x).
    - now rewrite IH.
    - destruct (replace_images uuid4 k limit i x) as [x' i1].
      now rewrite IH. }
  now rewrite E.
Qed.

Lemma descendants_list_cons (x : node) (r : list node) :
  descendants_list (x :: r)
  = x :: List.app (descendants x) (descendants_list r).
Proof. reflexivity. Qed.

Lemma find_all_tag p (name : string) (a : attrs) (c : list node) :
  find_all p (Tag name a c) = List.filter p (descendants_list c).
Proof. unfold find_all. now rewrite descendants_tag. Qed.


Lemma markers_placeholder (guid : string) :
  marker_id (placeholder guid) = None /\
  markers (placeholder guid) = [guid] /\
  find_all is_img (placeholder guid) = [].
Proof. repeat split; reflexivity. Qed.






Lemma guids_shift (k i n : nat) :
  guids uuid4 k (S i) n = guids uuid4 (k + 3) i n.
Proof.
  unfold guids. rewrite <- seq_shift, List.map_map.
  apply List.map_ext. intros t. f_equal. lia.
Qed.

(** The loop over images that all have a [src]: one block of type 3 for
    each, three identifiers drawn for each, and the block identifiers are
    the first of each three. *)
Lemma image_blocks_all (self : Importer) (images : list node) :
  forall k,
    forallb has_src images = true ->
    exists blocks,
      image_blocks uuid4 self k images
      = (blocks, k + 3 * List.length images, true) /\
      List.length blocks = List.length images /\
      Forall (fun b => control_type b = Some (JNum 3)) blocks /\
      List.map block_id blocks
      = List.map (fun g => Some (JStr g))
          (guids uuid4 k 0 (List.length images)) /\
      flat_map drawn_ids blocks
      = List.map (fun t => JStr (uuid4 t))
          (seq k (3 * List.length images)).
Proof.
  induction images as [|img rest IH]; intros k Hsrc.
  - exists []. simpl. rewrite Nat.add_0_r. repeat split; constructor.
  - simpl in Hsrc. apply andb_prop in Hsrc as [Himg Hrest].
    unfold has_src in Himg.
    destruct (get_attr "src" (node_attrs img)) as [src|] eqn:Esrc;
      [|discriminate].
    destruct (IH (k + 3) Hrest) as (blocks & Hrun & Hlen & Hty & Hid & Hdrawn).
    exists (image_block self (uuid4 k) (uuid4 (k + 1)) (uuid4 (k + 2)) src
              :: blocks).
    change (image_blocks uuid4 self k (img :: rest))
      with (match get_attr "src" (node_attrs img) with
            | None => ([], k + 3, false)
            | Some img_src =>
                let '(blocks, k', ok) := image_blocks uuid4 self (k + 3) rest in
                (image_block self (uuid4 k) (uuid4 (k + 1)) (uuid4 (k + 2))
                   img_src :: blocks, k', ok)
            end).
    rewrite Esrc, Hrun.
    split; [do 2 f_equal; simpl; lia|].
    split; [simpl; now rewrite Hlen|].
    split; [constructor; [reflexivity|assumption]|].
    split.
    + change (List.length (img :: rest)) with (S (List.length rest)).
      change (guids uuid4 k 0 (S (List.length rest)))
        with (uuid4 (k + 3 * 0) :: guids uuid4 k 1 (List.length rest)).
      rewrite guids_shift. rewrite List.map_cons, Hid.
      rewrite Nat.mul_0_r, Nat.add_0_r. reflexivity.
    + change (flat_map drawn_ids (?b :: blocks))
        with (List.app (drawn_ids b) (flat_map drawn_ids blocks)).
      rewrite Hdrawn.
      replace (3 * List.length (img :: rest))
        with (3 + 3 * List.length rest) by (simpl; lia).
      rewrite seq_app, List.map_app.
      replace (k + 1) with (S k) by lia.
      replace (k + 2) with (S (S k)) by lia.
      replace (k + 3) with (S (S (S k))) by lia.
      reflexivity.
Qed.


Lemma image_blocks_true (self : Importer) (images : list node) :
  forall k blocks k',
    image_blocks uuid4 self k images = (blocks, k', true) ->
    forallb has_src images = true.
Proof.
  induction images as [|img rest IH]; intros k blocks k' Hrun;
    [reflexivity|].
  simpl in Hrun. unfold has_src at 1. simpl.
  destruct (get_attr "src" (node_attrs img)) as [src|]; [|discriminate].
  destruct (image_blocks uuid4 self (k + 3) rest) as [[bs k1] ok] eqn:Er.
  injection Hrun as _ _ ->. simpl. eapply IH; eauto.
Qed.

(** A returned canvas: its image blocks, and what was drawn for them. *)
Lemma getSPPageCanvas_some (self : Importer) (k : nat) (content : node)
  (c : list json) :
  canvas (getSPPageCanvas uuid4 to_str self k content) = Some c ->
  next_uuid (getSPPageCanvas uuid4 to_str self k content)
  = k + 3 * List.length (find_all is_img content) /\
  flat_map drawn_ids c
  = List.map (fun t => JStr (uuid4 t))
      (seq k (3 * List.length (find_all is_img content))) /\
  In (Some (JStr rte_instance_id)) (List.map block_id c).
Proof.
  unfold getSPPageCanvas.
  destruct (image_blocks uuid4 self k (find_all is_img content))
    as [[blocks k'] ok] eqn:Erun.
  simpl. destruct ok; [|discriminate]. intros [= <-].
  pose proof (image_blocks_true _ _ _ _ _ Erun) as Hsrc.
  destruct (image_blocks_all self _ k Hsrc) as (bs & Hrun & _ & _ & _ & Hd).
  rewrite Hrun in Erun. injection Erun as <- <-.
  split; [reflexivity|]. split.
  - rewrite flat_map_app. simpl. rewrite Hd. apply List.app_nil_r.
  - rewrite List.map_app. apply List.in_or_app. right. left. reflexivity.
Qed.

(** C6, amended: when [uuid4] never repeats, the identifiers drawn for the
    image blocks of two consecutive builds, three for each image, are all
    different, within each build and between the two.  The rich-text block
    is not part of this: its [id] is the same constant in every build. *)
Theorem drawn_ids_never_repeat (self : Importer) (k : nat)
  (content1 content2 : node) (c1 c2 : list json) :
  (forall i j, uuid4 i = uuid4 j -> i = j) ->
  canvas (getSPPageCanvas uuid4 to_str self k content1) = Some c1 ->
  canvas (getSPPageCanvas uuid4 to_str self
            (next_uuid (getSPPageCanvas uuid4 to_str self k content1))
            content2) = Some c2 ->
  List.NoDup (List.app (flat_map drawn_ids c1) (flat_map drawn_ids c2)) /\
  List.length (flat_map drawn_ids c1)
  = 3 * List.length (find_all is_img content1) /\
  List.length (flat_map drawn_ids c2)
  = 3 * List.length (find_all is_img content2) /\
  In (Some (JStr rte_instance_id)) (List.map block_id c1) /\
  In (Some (JStr rte_instance_id)) (List.map block_id c2).
Proof.
  intros Hinj H1 H2.
  destruct (getSPPageCanvas_some _ _ _ _ H1) as (Hn1 & Hd1 & Hr1).
  rewrite Hn1 in H2.
  destruct (getSPPageCanvas_some _ _ _ _ H2) as (_ & Hd2 & Hr2).
  rewrite Hd1, Hd2.
  repeat split; auto.
  - rewrite <- List.map_app, <- seq_app.
    apply NoDup_map_NoDup_ForallPairs; [|apply seq_NoDup].
    intros i j _ _ [= E]. now apply Hinj.
  - now rewrite List.length_map, List.length_seq.
  - now rewrite List.length_map, List.length_seq.
Qed.

End CanvasFacts.

Section CanvasExamples.
Import Html Rewriter Canvas Examples.


(** C6, as stated, fails: two builds give their rich-text block the same
    identifier. *)
Lemma rich_text_id_is_shared :
  let b1 := getSPPageCanvas example_uuid4 render example_importer 0
              example_text_page in
  let b2 := getSPPageCanvas example_uuid4 render example_importer
              (next_uuid b1) example_text_page in
  option_map (List.map block_id) (canvas b1)
  = Some [Some (JStr "7802ec32-078a-42a7-b455-8eae2538781f"); None] /\
  option_map (List.map block_id) (canvas b2)
  = Some [Some (JStr "7802ec32-078a-42a7-b455-8eae2538781f"); None].
Proof. split; reflexivity. Qed.

Lemma marks_inj (i j : nat) : marks i = marks j -> i = j.
Proof.
  revert j. induction i as [|i IH]; intros [|j]; simpl; intros E.
  - reflexivity.
  - destruct j; discriminate.
  - destruct i; discriminate.
  - injection E as E. f_equal. now apply IH.
Qed.

Lemma example_uuid4_inj (i j : nat) :
  example_uuid4 i = example_uuid4 j -> i = j.
Proof. unfold example_uuid4. simpl. intros [= E]. now apply marks_inj. Qed.

Lemma drawn_ids_never_repeat_witness :
  exists c1 c2,
    canvas (getSPPageCanvas example_uuid4 render example_importer 0
              example_image_page) = Some c1 /\
    canvas (getSPPageCanvas example_uuid4 render example_importer 6
              example_image_page) = Some c2 /\
    List.NoDup (List.app (flat_map drawn_ids c1) (flat_map drawn_ids c2)) /\
    List.length (flat_map drawn_ids c1) = 6.
Proof.
  eexists. eexists.
  split; [reflexivity|]. split; [reflexivity|].
  pose proof (drawn_ids_never_repeat example_uuid4 render example_importer 0
                example_image_page example_image_page _ _
                example_uuid4_inj eq_refl eq_refl) as (Hnd & Hl & _).
  split; [exact Hnd|exact Hl].
Defined.

End CanvasExamples.

(** ** Attributes written back to the tree *)

Section WriteBack.
Import Html Rewriter Examples.

Lemma write_back_tag (p : node -> bool) (new : list attrs) (name : string)
  (a : attrs) (c : list node) :
  write_back p new (Tag name a c)
  = let (c', left) := write_back_list p new c in (Tag name a c', left).
Proof.
  simpl.
  match goal with
  | |- (let (_, _) := ?lhs in _) = (let (_, _) := ?rhs in _) =>
      assert (E : lhs = rhs)
  end.
  { revert new. induction c as [|x r IH]; intros new; simpl; [reflexivity|].
    destruct (if p x then _ else _) as [top new1].
    destruct (write_back p new1 x) as [x2 new2].
    now rewrite IH. }
  now rewrite E.
Qed.

(** Writing back the attributes that the elements have changes nothing:
    [write_back] meets the elements in the order of [find_all]. *)
Lemma write_back_same (p : node -> bool) (n : node) :
  forall rest,
    write_back p (List.app (List.map node_attrs (find_all p n)) rest) n
    = (n, rest).
Proof.
  induction n as [s|name a c IH] using node_rect_children; intros rest;
    [reflexivity|].
  rewrite write_back_tag. unfold find_all. rewrite descendants_tag.
  enough (H : write_back_list p
                (List.app
                   (List.map node_attrs (List.filter p (descendants_list c)))
                   rest) c = (c, rest)) by now rewrite H.
  revert rest. induction c as [|x r IHr]; intros rest; [reflexivity|].
  apply Forall_cons in IH as [Hx Hr]. specialize (IHr Hr).
  rewrite descendants_list_cons.
  change (List.filter p (x :: ?l))
    with (if p x then x :: List.filter p l else List.filter p l).
  rewrite List.filter_app.
  unfold write_back_list; fold write_back_list.
  destruct (p x).
  - rewrite List.map_cons, List.map_app. simpl List.app.
    rewrite <- List.app_assoc.
    unfold find_all in Hx. rewrite Hx, IHr.
    destruct x; reflexivity.
  - rewrite List.map_app, <- List.app_assoc.
    unfold find_all in Hx. rewrite Hx, IHr. reflexivity.
Qed.

(** The rewriting of paths on a tree: an image inside a link, both
    attachments, and a link that is none. *)
Lemma fix_paths_in_example :
  fix_paths_in example_importer
    (Tag "div" [("id", "main-content")]
       [Tag "p" []
          [Tag "a" [("href", "attachments/42/report.pdf");
                    ("data-linked-resource-type", "attachment")]
             [Tag "img" [("src", "attachments/42/logo.png");
                         ("data-linked-resource-type", "attachment")] []]];
        Tag "a" [("href", "setup.html")] [NavigableString "Setup"]])
  = Tag "div" [("id", "main-content")]
       [Tag "p" []
          [Tag "a" [("href", "https://contoso.sharepoint.com/sites/wiki/SiteAssets/attachments/42/report.pdf");
                    ("data-linked-resource-type", "attachment")]
             [Tag "img" [("src", "https://contoso.sharepoint.com/sites/wiki/SiteAssets/attachments/42/logo.png");
                         ("data-linked-resource-type", "attachment");
                         ("href", "https://contoso.sharepoint.com/sites/wiki/SiteAssets/attachments/42/logo.png")] []]];
        Tag "a" [("href", "setup.html")] [NavigableString "Setup"]].
Proof. reflexivity. Qed.

End WriteBack.

(** ** Uploads *)


Section UploadFacts.
Import Html Rewriter Canvas World Driver Examples.

Variable self : Importer.
Variable fs : gmap string fs_entry.
Variable folder : string.


End UploadFacts.

Section UploadTry.
Import Html Rewriter Canvas World Driver Examples.


End UploadTry.

Section UploadRule.
Import Html Rewriter Canvas World Driver Examples.



End UploadRule.

(** ** The link log *)

Section LinkLog.
Import Html Rewriter Canvas World Driver Examples.






End LinkLog.

(** ** The run *)

Section RunFacts.
Import Html Rewriter Canvas World Driver Examples.

Lemma same_pages_refl (s : Site) : same_pages s s.
Proof. split; reflexivity. Qed.

Lemma same_pages_trans (s1 s2 s3 : Site) :
  same_pages s1 s2 -> same_pages s2 s3 -> same_pages s1 s3.
Proof. intros [A B] [C D]. split; congruence. Qed.

Lemma execute_query_same_pages (s : Site) :
  same_pages s (fst (execute_query s)).
Proof. split; reflexivity. Qed.

Lemma getSiteUser_same_pages (s : Site) (full_name : string) :
  same_pages s (fst (getSiteUser s full_name)).
Proof.
  unfold getSiteUser.
  destruct (String.eqb (strip full_name) ""); [apply same_pages_refl|].
  unfold execute_query.
  destruct (negb (negb (fault s (round_trips s)))); split; reflexivity.
Qed.

Lemma add_attachments_loop_same_pages (self : Importer)
  (fs : gmap string fs_entry) (folder : string) (overwrite : bool)
  (files_to_add : list string) :
  forall s result,
    same_pages s
      (fst (add_attachments_loop self fs folder overwrite files_to_add s
              result)).
Proof.
  induction files_to_add as [|p rest IH]; intros s result; simpl.
  - apply same_pages_refl.
  - destruct (exists_path (windows_path self) fs p); simpl; [|apply IH].
    destruct (fault s (round_trips s)); simpl; [split; reflexivity|].
    match goal with
    | |- context [match ?o with Some _ => _ | None => _ end] => destruct o
    end.
    + eapply same_pages_trans; [|apply IH]. split; reflexivity.
    + destruct (read_file (windows_path self) fs p); [|split; reflexivity].
      simpl. destruct (fault s (S (round_trips s))); simpl;
        [split; reflexivity|].
      eapply same_pages_trans; [|apply IH]. split; reflexivity.
Qed.

Lemma add_attachments_same_pages (self : Importer)
  (fs : gmap string fs_entry) (files_to_add : list string)
  (page_folder : option string) (overwrite : bool) (s : Site) :
  same_pages s
    (fst (add_attachments self fs files_to_add page_folder overwrite s)).
Proof.
  unfold add_attachments.
  assert (H : same_pages s
                (fst (add_attachments_try self fs files_to_add page_folder
                        overwrite s))).
  { unfold add_attachments_try, execute_query.
    destruct (fault s (round_trips s)); simpl; [split; reflexivity|].
    match goal with
    | |- context [ensure_folder ?a ?b] =>
        assert (He : same_pages s (ensure_folder a b))
          by (unfold ensure_folder; simpl;
              destruct (folders s !! b); split; reflexivity);
        destruct He as [He1 He2];
        generalize dependent (ensure_folder a b)
    end.
    intros s2 He1 He2.
    destruct (fault s2 (round_trips s2)); simpl; [split; assumption|].
    eapply same_pages_trans;
      [|apply add_attachments_loop_same_pages]. split; assumption. }
  destruct (add_attachments_try self fs files_to_add page_folder overwrite s)
    as [s' [r|]]; exact H.
Qed.

Lemma uploadPageAttachment_same_pages (self : Importer)
  (fs : gmap string fs_entry) (path : string) (attachments : list node)
  (s : Site) :
  same_pages s (fst (uploadPageAttachment self fs path attachments s)).
Proof.
  unfold uploadPageAttachment.
  destruct (attachment_paths self fs path attachments [] "")
    as [[[|f arr] page_name]|]; try apply same_pages_refl.
  apply add_attachments_same_pages.
Qed.




Lemma length_zero_string (s : string) : Nat.eqb (String.length s) 0 = true <-> s = "".
Proof. destruct s; simpl; split; intros; congruence. Qed.




(** C4 at a page without the main-content container: the run answers
    [False] before any call to the site, and the page [Setup] that follows
    is not visited.  A page whose content is whitespace is skipped and
    [Setup] is migrated. *)
Lemma absent_main_content_ends_run :
  let r := example_run example_page_without_main (fun _ => false) true in
  snd r = false /\
  st_fs (fst r) = example_export example_page_without_main /\
  pages (st_site (fst r)) = [] /\
  round_trips (st_site (fst r)) = 0 /\
  let r' := example_run (example_page "   ") (fun _ => false) true in
  snd r' = true /\
  List.map page_title (pages (st_site (fst r'))) = ["Setup"] /\
  isfile false (st_fs (fst r')) "export/intro.html" = true /\
  isfile false (st_fs (fst r')) "export/setup.html_complete" = true.
Proof. vm_compute. repeat split; reflexivity. Qed.

(** C5 at a site whose list is empty and is not the page library: the
    query after the first publication finds no item, [add_edit_page]
    returns [None] without attaching the canvas, and the source file is
    renamed all the same. *)
Lemma renamed_without_canvas :
  let r := example_run (example_page "Welcome") (fun _ => false) false in
  snd r = true /\
  isfile false (st_fs (fst r)) "export/intro.html_complete" = true /\
  isfile false (st_fs (fst r)) "export/intro.html" = false /\
  List.map (fun p => (page_title p, page_canvas p)) (pages (st_site (fst r)))
  = [("Intro", None); ("Setup", None)].
Proof. vm_compute. repeat split; reflexivity. Qed.

End RunFacts.

(** * Further properties of the functions *)

(** ** Rewriting of paths and anchors *)

Section MoreRewriting.
Import Html Rewriter Canvas World Driver Examples Notions MoreExamples.


Lemma fix_attachment_rewritable (self : Importer) (n : node) :
  rewritable n
  = match fix_attachment self n with Some _ => true | None => false end.
Proof.
  destruct n as [s|name a c]; simpl; [reflexivity|].
  destruct (String.eqb name "a").
  - destruct (get_attr "href" a); reflexivity.
  - destruct (String.eqb name "img"); [|reflexivity].
    destruct (get_attr "src" a); reflexivity.
Qed.

(** X2: [fixAttachmentsPath] returns [False] exactly when some link has no
    [href] or some image has no [src]. *)
Theorem fixAttachmentsPath_flag (self : Importer) (atts : list node) :
  snd (fixAttachmentsPath self atts) = forallb rewritable atts.
Proof.
  induction atts as [|x r IH]; [reflexivity|].
  simpl. rewrite (fix_attachment_rewritable self x).
  destruct (fix_attachment self x) as [x'|]; [|reflexivity].
  destruct (fixAttachmentsPath self r) as [r' ok]. simpl in *. exact IH.
Qed.

(** X3: at the first link without [href] or image without [src] the call
    stops: the elements before it are rewritten, it and the elements after
    it are as they were, and the call returns [False]. *)
Theorem fixAttachmentsPath_stops (self : Importer) (before : list node)
  (x : node) (after : list node) :
  forallb rewritable before = true ->
  rewritable x = false ->
  fixAttachmentsPath self (List.app before (x :: after))
  = (List.app (fst (fixAttachmentsPath self before)) (x :: after), false).
Proof.
  intros Hb Hx. induction before as [|y r IH]; simpl.
  - rewrite (fix_attachment_rewritable self x) in Hx.
    destruct (fix_attachment self x); [discriminate|reflexivity].
  - simpl in Hb. apply andb_prop in Hb as [Hy Hr].
    rewrite (fix_attachment_rewritable self y) in Hy.
    destruct (fix_attachment self y) as [y'|]; [|discriminate].
    rewrite (IH Hr).
    destruct (fixAttachmentsPath self r) as [r' ok]. reflexivity.
Qed.

Lemma fix_anchor_plain (b : bool) (main_content link : node) :
  plain_link link = true -> fix_anchor b main_content link = Some main_content.
Proof.
  unfold plain_link, fix_anchor.
  destruct (get_attr "href" (node_attrs link)) as [href|]; [|discriminate].
  intros H. apply negb_true_iff in H. rewrite H.
  now rewrite andb_false_r.
Qed.

(** X4: links whose [href] does not start with [#] leave the content as it
    is, and [fixAnchors] returns [True]. *)
Theorem fixAnchors_plain_links (b : bool) (links : list node)
  (main_content : node) :
  forallb plain_link links = true ->
  fixAnchors b links main_content = (main_content, true).
Proof.
  induction links as [|l r IH]; intros H; [reflexivity|].
  simpl in H. apply andb_prop in H as [Hl Hr].
  simpl. rewrite (fix_anchor_plain b main_content l Hl). now apply IH.
Qed.

Lemma replace_first_found (p : node -> bool) (f : node -> node) (n x : node) :
  Rewriter.find p n = Some x -> exists n', replace_first p f n = Some n'.
Proof.
  intros H. pose proof (replace_first_spec p f n) as S. rewrite H in S.
  destruct S as (path & n' & Hr & _). eauto.
Qed.

Lemma replace_first_missing (p : node -> bool) (f : node -> node) (n : node) :
  Rewriter.find p n = None -> replace_first p f n = None.
Proof.
  intros H. pose proof (replace_first_spec p f n) as S. now rewrite H in S.
Qed.

Lemma replace_first_top (p : node -> bool) (f : node -> node) (n n' : node) :
  replace_first p f n = Some n' ->
  node_name n' = node_name n /\ node_attrs n' = node_attrs n.
Proof.
  destruct n as [s|name a c]; [discriminate|].
  rewrite replace_first_tag.
  destruct (replace_first_list p f c); [|discriminate].
  intros [= <-]. split; reflexivity.
Qed.

(** The count of the nodes that satisfy [q], a test on the name and the
    attributes, after [replace_first]. *)
Lemma replace_first_count (p q : node -> bool) (f : node -> node) :
  (forall x y, node_name x = node_name y -> node_attrs x = node_attrs y ->
               q x = q y) ->
  (forall x, p x = true -> q (f x) = q x) ->
  forall n x n',
    Rewriter.find p n = Some x ->
    replace_first p f n = Some n' ->
    List.length (find_all q n') + List.length (find_all q x)
    = List.length (find_all q n) + List.length (find_all q (f x)).
Proof.
  intros Hq Hf.
  induction n as [s|name a c IH] using node_rect_children;
    intros x n' Hfind Hrep; [discriminate|].
  rewrite replace_first_tag in Hrep.
  destruct (replace_first_list p f c) as [c'|] eqn:Hc; [|discriminate].
  injection Hrep as <-.
  unfold Rewriter.find in Hfind. rewrite descendants_tag in Hfind.
  rewrite !find_all_tag.
  revert c' Hc Hfind. induction c as [|y r IHr]; intros c' Hc Hfind;
    [discriminate|].
  apply Forall_cons in IH as [Hy Hr]. specialize (IHr Hr).
  rewrite descendants_list_cons in Hfind |- *.
  simpl in Hfind, Hc.
  destruct (p y) eqn:Epy.
  - injection Hfind as <-. injection Hc as <-.
    rewrite descendants_list_cons. simpl.
    rewrite (Hf y Epy).
    destruct (q y); simpl; rewrite !List.filter_app, !List.length_app;
      unfold find_all; lia.
  - rewrite find_app_list in Hfind.
    destruct (List.find p (descendants y)) as [z|] eqn:Ez.
    + injection Hfind as ->.
      destruct (replace_first_found p f y x Ez) as (y' & Hy').
      rewrite Hy' in Hc. injection Hc as <-.
      rewrite descendants_list_cons. simpl.
      destruct (replace_first_top p f y y' Hy') as [Hn Ha].
      rewrite (Hq y' y Hn Ha).
      specialize (Hy x y' Ez Hy').
      destruct (q y); simpl; rewrite !List.filter_app, !List.length_app;
        unfold find_all in Hy |- *; lia.
    + rewrite (replace_first_missing p f y Ez) in Hc.
      destruct (replace_first_list p f r) as [r'|] eqn:Hr'; [|discriminate].
      injection Hc as <-.
      specialize (IHr r' eq_refl Hfind).
      rewrite descendants_list_cons. simpl.
      destruct (q y); simpl; rewrite !List.filter_app, !List.length_app;
        lia.
Qed.

(** X5: converting a heading discards what the heading holds: after the
    iteration for a link to an [h3], the content has as many images fewer
    as there were inside that heading. *)
Theorem fixAnchors_drops_images (b : bool) (main_content link : node)
  (href : string) (anchor : node) :
  get_attr "href" (node_attrs link) = Some href ->
  starts_with_hash href = true ->
  Rewriter.find (is_anchor b (remove_char "#" href)) main_content
  = Some anchor ->
  List.length (find_all is_img (fst (fixAnchors b [link] main_content)))
  + List.length (find_all is_img anchor)
  = List.length (find_all is_img main_content).
Proof.
  intros Hhref Hhash Hfind.
  destruct (replace_first_found _ convert_anchor _ _ Hfind) as (mc' & Hrep).
  assert (Hrun : fixAnchors b [link] main_content = (mc', true)).
  { unfold fixAnchors, fix_anchor. rewrite Hhref, Hhash.
    assert (Hne : negb (String.eqb href "") = true)
      by (destruct href; [discriminate|reflexivity]).
    rewrite Hne. cbn [andb]. now rewrite Hrep. }
  rewrite Hrun. simpl.
  pose proof (replace_first_count
                (is_anchor b (remove_char "#" href)) is_img convert_anchor)
    as Hcount.
  rewrite (Hcount ltac:(intros [?|? ? ?] [?|? ? ?]; simpl; congruence)
             ltac:(intros [?|nm a c]; simpl; [discriminate|];
                   intros H; apply andb_prop in H as [H _];
                   apply String.eqb_eq in H; subst nm; reflexivity)
             _ _ _ Hfind Hrep).
  destruct anchor as [s|nm a c]; simpl.
  - apply find_some_holds in Hfind. discriminate.
  - lia.
Qed.


Lemma fixAttachmentsPath_stops_witness :
  fixAttachmentsPath example_importer example_broken_attachments
  = ([Tag "a" [("href", "https://contoso.sharepoint.com/sites/wiki/SiteAssets/attachments/42/report.pdf");
               ("data-linked-resource-type", "attachment")] [];
      Tag "img" [("alt", "logo");
                 ("data-linked-resource-type", "attachment")] [];
      Tag "a" [("href", "attachments/42/notes.txt");
               ("data-linked-resource-type", "attachment")] []],
     false).
Proof.
  exact (fixAttachmentsPath_stops example_importer
           [Tag "a" [("href", "attachments/42/report.pdf");
                     ("data-linked-resource-type", "attachment")] []]
           (Tag "img" [("alt", "logo");
                       ("data-linked-resource-type", "attachment")] [])
           [Tag "a" [("href", "attachments/42/notes.txt");
                     ("data-linked-resource-type", "attachment")] []]
           eq_refl eq_refl).
Defined.

Lemma fixAnchors_plain_links_witness :
  fixAnchors true example_links example_h3_page = (example_h3_page, true).
Proof.
  exact (fixAnchors_plain_links true example_links example_h3_page eq_refl).
Defined.

Lemma fixAnchors_drops_images_witness :
  List.length
    (find_all is_img
       (fst (fixAnchors true
               [Tag "a" [("href", "#logo")] [NavigableString "see logo"]]
               example_heading_image_page)))
  + 1 = 2.
Proof.
  exact (fixAnchors_drops_images true example_heading_image_page
           (Tag "a" [("href", "#logo")] [NavigableString "see logo"])
           "#logo"
           (Tag "h3" [("id", "logo")]
              [NavigableString " Our logo ";
               Tag "img" [("src", "attachments/42/logo.png")] []])
           eq_refl eq_refl eq_refl).
Defined.

End MoreRewriting.

(** ** The canvas, further *)

Section MoreCanvas.
Import Html Rewriter Canvas World Driver Examples Notions MoreExamples.

Variable uuid4 : nat -> string.
Variable to_str : node -> string.

Lemma image_blocks_flag (self : Importer) (images : list node) :
  forall k, snd (image_blocks uuid4 self k images) = forallb has_src images.
Proof.
  induction images as [|img rest IH]; intros k; [reflexivity|].
  simpl. unfold has_src at 1.
  destruct (get_attr "src" (node_attrs img)); [|reflexivity].
  specialize (IH (k + 3)).
  destruct (image_blocks uuid4 self (k + 3) rest) as [[bs k'] ok].
  simpl in *. exact IH.
Qed.

(** X6: [getSPPageCanvas] raises exactly when some image of the content
    has no [src]. *)
Theorem getSPPageCanvas_raises_without_src (self : Importer) (k : nat)
  (content : node) :
  canvas (getSPPageCanvas uuid4 to_str self k content) = None
  <-> imgs_have_src content = false.
Proof.
  unfold getSPPageCanvas, imgs_have_src.
  pose proof (image_blocks_flag self (find_all is_img content) k) as H.
  destruct (image_blocks uuid4 self k (find_all is_img content))
    as [[blocks k'] ok].
  simpl in *. rewrite <- H. destruct ok; split; congruence.
Qed.

Lemma image_blocks_sources (self : Importer) (images : list node) :
  forall k,
    forallb has_src images = true ->
    List.map image_source (fst (fst (image_blocks uuid4 self k images)))
    = List.map (fun img => option_map JStr (src_of img)) images.
Proof.
  induction images as [|img rest IH]; intros k Hs; [reflexivity|].
  simpl in Hs. apply andb_prop in Hs as [Hi Hr].
  unfold has_src in Hi. simpl. unfold src_of at 1.
  destruct (get_attr "src" (node_attrs img)) as [s|]; [|discriminate].
  specialize (IH (k + 3) Hr).
  destruct (image_blocks uuid4 self (k + 3) rest) as [[bs k'] ok].
  simpl in *. now rewrite IH.
Qed.

Lemma omap_of_map {A B : Type} (f : A -> option B) (l : list A) :
  omap f l = omap (fun x => x) (List.map f l).
Proof.
  induction l as [|a l IH]; [reflexivity|].
  simpl. destruct (f a); simpl; [f_equal|]; exact IH.
Qed.

(** X7: in a returned canvas the image blocks carry, in document order,
    the [src] of the images of the content as their image source, one block
    for each image, and three identifiers were drawn for each image. *)
Theorem getSPPageCanvas_sources (self : Importer) (k : nat) (content : node)
  (c : list json) :
  canvas (getSPPageCanvas uuid4 to_str self k content) = Some c ->
  omap image_source c
  = omap (fun img => option_map JStr (src_of img)) (find_all is_img content)
  /\ List.length (omap image_source c)
     = List.length (find_all is_img content)
  /\ next_uuid (getSPPageCanvas uuid4 to_str self k content)
     = k + 3 * List.length (find_all is_img content).
Proof.
  intros Hc.
  destruct (getSPPageCanvas_some uuid4 to_str self k content c Hc)
    as (Hn & _ & _).
  unfold getSPPageCanvas in Hc.
  assert (Hsrc : imgs_have_src content = true).
  { unfold imgs_have_src.
    rewrite <- (image_blocks_flag self (find_all is_img content) k).
    destruct (image_blocks uuid4 self k (find_all is_img content))
      as [[blocks k'] ok].
    simpl in *. destruct ok; [reflexivity|discriminate]. }
  pose proof (image_blocks_sources self (find_all is_img content) k Hsrc) as Hs.
  destruct (image_blocks uuid4 self k (find_all is_img content))
    as [[blocks k'] ok].
  simpl in Hc, Hs. destruct ok; [|discriminate]. injection Hc as <-.
  rewrite omap_app. simpl. rewrite List.app_nil_r.
  rewrite (omap_of_map image_source blocks).
  rewrite (omap_of_map (fun img => option_map JStr (src_of img))).
  rewrite Hs. split; [reflexivity|]. split; [|exact Hn].
  clear - Hsrc. unfold imgs_have_src in Hsrc.
  induction (find_all is_img content) as [|b r IH]; [reflexivity|].
  simpl in Hsrc. apply andb_prop in Hsrc as [Hb Hr].
  unfold has_src in Hb. simpl. unfold src_of at 1.
  destruct (get_attr "src" (node_attrs b)); [|discriminate].
  simpl. f_equal. exact (IH Hr).
Qed.

Lemma replace_images_none (k limit : nat) (n : node) :
  find_all is_img n = [] ->
  forall i, replace_images uuid4 k limit i n = (n, i).
Proof.
  induction n as [s|name a c IH] using node_rect_children; intros Hn i;
    [reflexivity|].
  rewrite replace_images_tag. rewrite find_all_tag in Hn.
  enough (H : replace_images_list uuid4 k limit i c = (c, i))
    by now rewrite H.
  revert i Hn. induction c as [|x r IHr]; intros i Hn; [reflexivity|].
  apply Forall_cons in IH as [Hx Hr]. specialize (IHr Hr).
  rewrite descendants_list_cons in Hn. simpl in Hn.
  destruct (is_img x) eqn:Ex; [discriminate|].
  rewrite List.filter_app in Hn. apply app_eq_nil in Hn as [Hn1 Hn2].
  simpl. rewrite Ex. rewrite (Hx Hn1 i). now rewrite (IHr i Hn2).
Qed.

(** X8: for a content without images [getSPPageCanvas] draws no
    identifier, leaves the content as it is and returns the rich-text block
    of the serialised content followed by the settings block. *)
Theorem getSPPageCanvas_without_images (self : Importer) (k : nat)
  (content : node) :
  find_all is_img content = [] ->
  getSPPageCanvas uuid4 to_str self k content
  = {| canvas := Some [rich_text_block (to_str content); settings_block];
       content_after := content;
       next_uuid := k |}.
Proof.
  intros Hn. unfold getSPPageCanvas. rewrite Hn. simpl.
  now rewrite (replace_images_none k 0 content Hn 0).
Qed.

End MoreCanvas.

Section MoreCanvasExamples.
Import Html Rewriter Canvas World Driver Examples Notions MoreExamples.

Lemma getSPPageCanvas_raises_without_src_witness :
  canvas (getSPPageCanvas example_uuid4 render example_importer 0
            example_broken_image_page) = None.
Proof.
  apply (proj2 (getSPPageCanvas_raises_without_src example_uuid4 render
                  example_importer 0 example_broken_image_page)).
  reflexivity.
Defined.

Lemma getSPPageCanvas_sources_witness :
  exists c,
    canvas (getSPPageCanvas example_uuid4 render example_importer 0
              example_image_page) = Some c /\
    omap image_source c
    = [JStr "https://contoso/a.png"; JStr "https://contoso/b.png"].
Proof.
  eexists. split; [reflexivity|].
  destruct (getSPPageCanvas_sources example_uuid4 render example_importer 0
              example_image_page _ eq_refl) as (Hs & _).
  rewrite Hs. reflexivity.
Defined.

Lemma getSPPageCanvas_without_images_witness :
  canvas (getSPPageCanvas example_uuid4 render example_importer 7
            example_text_page)
  = Some [rich_text_block "<div id='main-content'><p>Hello</p></div>";
          settings_block].
Proof.
  rewrite (getSPPageCanvas_without_images example_uuid4 render
             example_importer 7 example_text_page eq_refl).
  reflexivity.
Defined.

End MoreCanvasExamples.

(** ** The link log and the user lookup, further *)

Section MoreLog.
Import Html Rewriter Canvas World Driver Examples Notions MoreExamples.

Lemma last_href_none (links : list node) :
  forallb has_href links = false ->
  forall seen, last_href links seen = None.
Proof.
  induction links as [|l r IH]; intros H seen; [discriminate|].
  simpl in H |- *. unfold has_href in H.
  destruct (get_attr "href" (node_attrs l)); [|reflexivity].
  apply IH. exact H.
Qed.

(** X9: given no link, or a list in which some link has no [href],
    [logLinks] returns [False] and writes nothing. *)
Theorem logLinks_fails (links : list node) (page_url : string)
  (log : list string) :
  links = [] \/ forallb has_href links = false ->
  logLinks links page_url log = (log, false).
Proof.
  intros [-> | H]; [reflexivity|].
  unfold logLinks. now rewrite (last_href_none links H None).
Qed.

Lemma last_href_last (before : list node) (last : node) (href : string) :
  forallb has_href before = true ->
  get_attr "href" (node_attrs last) = Some href ->
  forall seen,
    last_href (List.app before [last]) seen = Some (last, href).
Proof.
  intros Hb Hl. induction before as [|l r IH]; intros seen; simpl.
  - now rewrite Hl.
  - simpl in Hb. apply andb_prop in Hb as [H1 H2]. unfold has_href in H1.
    destruct (get_attr "href" (node_attrs l)); [|discriminate].
    now apply IH.
Qed.

(** X10: when every link has an [href], [logLinks] returns [True] and
    only the last link counts: its message is appended when its [href]
    contains [html], and nothing is appended otherwise, whatever the links
    before it are. *)
Theorem logLinks_last_link_only (before : list node) (last : node)
  (href page_url : string) (log : list string) :
  forallb has_href before = true ->
  get_attr "href" (node_attrs last) = Some href ->
  logLinks (List.app before [last]) page_url log
  = (if contains "html" href
     then List.app log
            ["Link: " ++ href ++ ". Text: " ++ text last ++ ". URL: "
             ++ page_url ++ "  "]
     else log,
     true).
Proof.
  intros Hb Hl. unfold logLinks.
  rewrite (last_href_last before last href Hb Hl None).
  simpl. rewrite orb_false_r.
  destruct (contains "html" href); reflexivity.
Qed.

(** X11: [getSiteUser] makes no call for a name that is blank once
    stripped and exactly one call otherwise; it changes nothing else of the
    site; a failed call gives [None]; a user it returns is a user of the
    site whose title is the stripped name. *)
Theorem getSiteUser_result (s : Site) (full_name : string) :
  let s' := fst (getSiteUser s full_name) in
  let found := snd (getSiteUser s full_name) in
  (site_users s' = site_users s /\ folders s' = folders s /\
   uploads s' = uploads s /\ pages s' = pages s /\ items s' = items s) /\
  (strip full_name = "" -> s' = s /\ found = None) /\
  (strip full_name <> "" -> round_trips s' = S (round_trips s)) /\
  (fault s (round_trips s) = true -> found = None) /\
  (forall user, found = Some user ->
     user_title user = strip full_name /\ In user (site_users s)).
Proof.
  unfold getSiteUser.
  destruct (String.eqb_spec (strip full_name) "") as [E|E].
  - simpl. rewrite E.
    split; [auto|]. split; [auto|]. split; [congruence|].
    split; [auto|]. intros user [=].
  - unfold execute_query.
    destruct (fault s (round_trips s)) eqn:Ef; simpl.
    + split; [auto|]. split; [congruence|]. split; [auto|].
      split; [auto|]. intros user [=].
    + split; [auto|]. split; [congruence|]. split; [auto|].
      split; [congruence|].
      intros user Hu. apply List.find_some in Hu as [Hin Hu].
      apply String.eqb_eq in Hu. auto.
Qed.

Lemma logLinks_fails_witness :
  logLinks [Tag "a" [("href", "setup.html")] [NavigableString "Setup"];
            Tag "a" [("name", "top")] []]
    "/sites/wiki/SitePages/Intro.aspx" ["earlier"]
  = (["earlier"], false).
Proof.
  apply logLinks_fails. right. reflexivity.
Defined.

Lemma logLinks_last_link_only_witness :
  logLinks example_links "/sites/wiki/SitePages/Intro.aspx" []
  = (["Link: setup.html. Text: Setup. URL: /sites/wiki/SitePages/Intro.aspx  "],
     true).
Proof.
  exact (logLinks_last_link_only
           [Tag "a" [("href", "install.html")] [NavigableString "Install"]]
           (Tag "a" [("href", "setup.html")] [NavigableString "Setup"])
           "setup.html" "/sites/wiki/SitePages/Intro.aspx" []
           eq_refl eq_refl).
Defined.

Lemma getSiteUser_result_witness :
  snd (getSiteUser example_site "  Ada Lovelace ")
  = Some {| user_title := "Ada Lovelace"; user_email := "ada@contoso.com" |}
  /\ user_title {| user_title := "Ada Lovelace";
                   user_email := "ada@contoso.com" |}
     = strip "  Ada Lovelace ".
Proof.
  split; [reflexivity|].
  destruct (getSiteUser_result example_site "  Ada Lovelace ")
    as (_ & _ & _ & _ & H).
  exact (proj1 (H _ eq_refl)).
Defined.

End MoreLog.

(** ** Uploads, further *)

#[local] Set Warnings "-clear-no-such-hyp".

Section MoreUploads.
Import Html Rewriter Canvas World Driver Examples Notions MoreExamples.

Lemma add_attachments_loop_dom (self : Importer) (fs : gmap string fs_entry)
  (folder : string) (overwrite : bool) (files_to_add : list string) :
  forall s result s' res,
    add_attachments_loop self fs folder overwrite files_to_add s result
    = (s', Some res) ->
    dom res = dom result ∪ list_to_set files_to_add.
Proof.
  induction files_to_add as [|p rest IH]; intros s result s' res Hrun.
  - injection Hrun as _ <-. set_solver.
  - simpl in Hrun.
    destruct (exists_path (windows_path self) fs p); simpl in Hrun.
    + destruct (fault s (round_trips s)); simpl in Hrun; [discriminate|].
      match type of Hrun with
      | context [match ?o with Some _ => _ | None => _ end] => destruct o
      end.
      * apply IH in Hrun. rewrite Hrun, !dom_insert_L. set_solver.
      * destruct (read_file (windows_path self) fs p); [|discriminate].
        simpl in Hrun.
        destruct (fault s (S (round_trips s))); simpl in Hrun; [discriminate|].
        apply IH in Hrun. rewrite Hrun, !dom_insert_L. set_solver.
    + apply IH in Hrun. rewrite Hrun, !dom_insert_L. set_solver.
Qed.

Lemma failed_map_lookup (files : list string) (v : status) (p : string) :
  In p files ->
  (list_to_map (List.map (fun file => (file, v)) files)
     : gmap string status) !! p = Some v.
Proof.
  induction files as [|f r IH]; intros Hin; [destruct Hin|].
  simpl. destruct (decide (f = p)) as [->|Hne].
  - apply lookup_insert_eq.
  - rewrite lookup_insert_ne by exact Hne.
    apply IH. destruct Hin; [contradiction|assumption].
Qed.

Lemma failed_map_dom (files : list string) (v : status) :
  dom (list_to_map (List.map (fun file => (file, v)) files)
         : gmap string status)
  = list_to_set files.
Proof.
  induction files as [|f r IH]; simpl.
  - apply dom_empty_L.
  - rewrite dom_insert_L, IH. reflexivity.
Qed.

(** X13: the dictionary that [add_attachments] returns has an entry for
    every path of [files_to_add] and for nothing else, whether the call was
    interrupted or not. *)
Theorem add_attachments_keys (self : Importer) (fs : gmap string fs_entry)
  (files_to_add : list string) (page_folder : option string)
  (overwrite : bool) (s : Site) :
  dom (snd (add_attachments self fs files_to_add page_folder overwrite s))
  = list_to_set files_to_add.
Proof.
  unfold add_attachments.
  destruct (add_attachments_try self fs files_to_add page_folder overwrite s)
    as [s' [res|]] eqn:Etry; simpl.
  - unfold add_attachments_try, execute_query in Etry.
    destruct (fault s (round_trips s)); simpl in Etry; [discriminate|].
    match type of Etry with
    | context [fault ?s2 (round_trips ?s2)] =>
        destruct (fault s2 (round_trips s2)); simpl in Etry; [discriminate|]
    end.
    apply add_attachments_loop_dom in Etry. rewrite Etry. set_solver.
  - apply failed_map_dom.
Qed.

(** X14: when an exception interrupts [add_attachments], every path is
    reported as failed, the paths uploaded before the exception
    included. *)
Theorem add_attachments_failure_reports_all (self : Importer)
  (fs : gmap string fs_entry) (files_to_add : list string)
  (page_folder : option string) (overwrite : bool) (s : Site)
  (path : string) :
  snd (add_attachments_try self fs files_to_add page_folder overwrite s)
  = None ->
  In path files_to_add ->
  snd (add_attachments self fs files_to_add page_folder overwrite s) !! path
  = Some {[ "result" := "Upload failed due to an error." ]}.
Proof.
  intros Hfail Hin. unfold add_attachments.
  destruct (add_attachments_try self fs files_to_add page_folder overwrite s)
    as [s' [res|]]; [discriminate|].
  simpl. now apply failed_map_lookup.
Qed.

Lemma read_file_isfile (w : bool) (fs : gmap string fs_entry) (p : string)
  (c : file_content) :
  read_file w fs p = Some c -> isfile w fs p = true.
Proof.
  unfold read_file, isfile. destruct (fs !! fs_key w p) as [[?|]|]; congruence.
Qed.

(** What the loop uploads: files that exist locally, into the folder. *)
Lemma add_attachments_loop_uploads (self : Importer)
  (fs : gmap string fs_entry) (folder : string) (overwrite : bool)
  (files_to_add : list string) :
  forall s result,
  exists new,
    uploads (fst (add_attachments_loop self fs folder overwrite files_to_add
                    s result))
    = List.app (uploads s) new /\
    Forall (fun e => fst e = folder /\
                     exists p, In p files_to_add /\
                               snd e = basename (windows_path self) p /\
                               isfile (windows_path self) fs p = true) new.
Proof.
  induction files_to_add as [|p rest IH]; intros s result.
  - exists []. split; [symmetry; apply List.app_nil_r|constructor].
  - assert (Hlift : forall s0 res0,
               uploads s0 = uploads s ->
               exists new,
                 uploads (fst (add_attachments_loop self fs folder overwrite
                                 rest s0 res0))
                 = List.app (uploads s) new /\
                 Forall (fun e => fst e = folder /\
                           exists q, In q (p :: rest) /\
                             snd e = basename (windows_path self) q /\
                             isfile (windows_path self) fs q = true) new).
    { intros s0 res0 E. destruct (IH s0 res0) as (new & Hn & Hf).
      exists new. rewrite Hn, E. split; [reflexivity|].
      eapply List.Forall_impl; [|exact Hf].
      intros e (He & q & Hq & Hb & Hi). split; [exact He|].
      exists q. split; [now right|auto]. }
    assert (Hstop : forall s0,
               uploads s0 = uploads s ->
               exists new,
                 uploads s0 = List.app (uploads s) new /\
                 Forall (fun e => fst e = folder /\
                           exists q, In q (p :: rest) /\
                             snd e = basename (windows_path self) q /\
                             isfile (windows_path self) fs q = true) new).
    { intros s0 E. exists []. rewrite E.
      split; [symmetry; apply List.app_nil_r|constructor]. }
    simpl.
    destruct (exists_path (windows_path self) fs p); simpl;
      [|apply Hlift; reflexivity].
    destruct (fault s (round_trips s)); simpl; [apply Hstop; reflexivity|].
    match goal with
    | |- context [match ?o with Some _ => _ | None => _ end] => destruct o
    end; [apply Hlift; reflexivity|].
    destruct (read_file (windows_path self) fs p) as [c|] eqn:Er;
      [|apply Hstop; reflexivity].
    simpl. destruct (fault s (S (round_trips s))); simpl;
      [apply Hstop; reflexivity|].
    match goal with
    | |- context [add_attachments_loop _ _ _ _ rest ?s3 ?r3] =>
        destruct (IH s3 r3) as (new & Hn & Hf)
    end.
    exists ((folder, basename (windows_path self) p) :: new).
    rewrite Hn. simpl. split; [now rewrite <- List.app_assoc|].
    constructor.
    + split; [reflexivity|]. exists p. split; [now left|].
      split; [reflexivity|]. eapply read_file_isfile; eauto.
    + eapply List.Forall_impl; [|exact Hf].
      intros e (He & q & Hq & Hb & Hi). split; [exact He|].
      exists q. split; [now right|auto].
Qed.

Lemma add_attachments_uploads (self : Importer)
  (fs : gmap string fs_entry) (files_to_add : list string)
  (page_folder : option string) (overwrite : bool) (s : Site) :
  exists new,
    uploads (fst (add_attachments self fs files_to_add page_folder overwrite
                    s))
    = List.app (uploads s) new /\
    Forall (fun e => fst e = target_folder_path self page_folder /\
                     exists p, In p files_to_add /\
                               snd e = basename (windows_path self) p /\
                               isfile (windows_path self) fs p = true) new.
Proof.
  assert (H : exists new,
             uploads (fst (add_attachments_try self fs files_to_add
                             page_folder overwrite s))
             = List.app (uploads s) new /\
             Forall (fun e => fst e = target_folder_path self page_folder /\
                       exists p, In p files_to_add /\
                         snd e = basename (windows_path self) p /\
                         isfile (windows_path self) fs p = true) new).
  { unfold add_attachments_try, execute_query.
    destruct (fault s (round_trips s)); simpl.
    { exists []. split; [symmetry; apply List.app_nil_r|constructor]. }
    set (s2 := ensure_folder _ _).
    assert (E2 : uploads s2 = uploads s).
    { unfold s2, ensure_folder. simpl.
      destruct (folders s !! _); reflexivity. }
    destruct (fault s2 (round_trips s2)); simpl.
    { exists []. rewrite E2.
      split; [symmetry; apply List.app_nil_r|constructor]. }
    match goal with
    | |- context [add_attachments_loop _ _ ?f _ _ ?s3 ?r3] =>
        destruct (add_attachments_loop_uploads self fs f overwrite
                    files_to_add s3 r3) as (new & Hn & Hf)
    end.
    exists new. rewrite Hn. simpl. rewrite E2. auto. }
  unfold add_attachments.
  destruct (add_attachments_try self fs files_to_add page_folder overwrite s)
    as [s' [r|]]; exact H.
Qed.

(** X12: whatever happens during the call, [add_attachments] uploads only
    into the target folder and only under the names of paths of
    [files_to_add] that are local files. *)
Theorem add_attachments_uploads_local_files (self : Importer)
  (fs : gmap string fs_entry) (files_to_add : list string)
  (page_folder : option string) (overwrite : bool) (s : Site) :
  exists new,
    uploads (fst (add_attachments self fs files_to_add page_folder overwrite
                    s))
    = List.app (uploads s) new /\
    Forall (fun e => fst e = target_folder_path self page_folder /\
                     exists p, In p files_to_add /\
                               snd e = basename (windows_path self) p /\
                               isfile (windows_path self) fs p = true) new.
Proof. apply add_attachments_uploads. Qed.

Lemma attachment_paths_none (self : Importer) (fs : gmap string fs_entry)
  (path : string) (attachments : list node) :
  forallb has_href attachments = false ->
  forall arr page_name,
    attachment_paths self fs path attachments arr page_name = None.
Proof.
  induction attachments as [|a r IH]; intros H arr pn; [discriminate|].
  simpl in H |- *. unfold has_href in H.
  destruct (get_attr "href" (node_attrs a)); [|reflexivity].
  destruct (isfile _ _ _); apply IH; exact H.
Qed.

(** X16: when an attachment link has no [href], [uploadPageAttachment]
    returns [False] and calls the site for nothing: no attachment of the
    page is uploaded. *)
Theorem uploadPageAttachment_missing_href (self : Importer)
  (fs : gmap string fs_entry) (path : string) (attachments : list node)
  (s : Site) :
  forallb has_href attachments = false ->
  uploadPageAttachment self fs path attachments s = (s, false).
Proof.
  intros H. unfold uploadPageAttachment.
  now rewrite (attachment_paths_none self fs path attachments H).
Qed.

Lemma attachment_paths_not_local (self : Importer) (fs : gmap string fs_entry)
  (path : string) (attachments : list node) :
  forallb (not_local self fs path) attachments = true ->
  forall arr page_name,
    attachment_paths self fs path attachments arr page_name
    = Some (arr, page_name).
Proof.
  induction attachments as [|a r IH]; intros H arr pn; [reflexivity|].
  simpl in H |- *. apply andb_prop in H as [Ha Hr]. unfold not_local in Ha.
  destruct (get_attr "href" (node_attrs a)); [|discriminate].
  apply negb_true_iff in Ha. rewrite Ha. now apply IH.
Qed.

(** X17: when no attachment link leads to a local file,
    [uploadPageAttachment] returns [True] and makes no call. *)
Theorem uploadPageAttachment_nothing_local (self : Importer)
  (fs : gmap string fs_entry) (path : string) (attachments : list node)
  (s : Site) :
  forallb (not_local self fs path) attachments = true ->
  uploadPageAttachment self fs path attachments s = (s, true).
Proof.
  intros H. unfold uploadPageAttachment.
  now rewrite (attachment_paths_not_local self fs path attachments H).
Qed.

(** The paths that the loop collects are the upload paths of attachment
    links whose file is a local file. *)
Lemma attachment_paths_local (self : Importer) (fs : gmap string fs_entry)
  (path : string) (attachments : list node) :
  forall arr page_name arr' page_name',
    attachment_paths self fs path attachments arr page_name
    = Some (arr', page_name') ->
    forall p, In p arr' ->
      In p arr \/
      exists a h,
        In a attachments /\
        get_attr "href" (node_attrs a) = Some h /\
        isfile (windows_path self) fs
          (path_join (windows_path self) path h) = true /\
        p = upload_path self path h.
Proof.
  induction attachments as [|a r IH]; intros arr pn arr' pn' H p Hp.
  - injection H as <- <-. now left.
  - simpl in H.
    destruct (get_attr "href" (node_attrs a)) as [h|] eqn:Eh; [|discriminate].
    destruct (isfile (windows_path self) fs
                (path_join (windows_path self) path h)) eqn:Ef.
    + destruct (IH _ _ _ _ H p Hp) as [Hin|(a' & h' & Ha' & Hh' & Hf' & ->)].
      * apply List.in_app_or in Hin as [Hin|[<-|[]]]; [now left|].
        right. exists a, h. split; [now left|]. auto.
      * right. exists a', h'. split; [now right|]. auto.
    + destruct (IH _ _ _ _ H p Hp) as [Hin|(a' & h' & Ha' & Hh' & Hf' & ->)].
      * now left.
      * right. exists a', h'. split; [now right|]. auto.
Qed.

(** X18: [uploadPageAttachment] uploads only files of attachment links
    that are local files, and all uploads of a call go to one folder. *)
Theorem uploadPageAttachment_uploads (self : Importer)
  (fs : gmap string fs_entry) (path : string) (attachments : list node)
  (s : Site) :
  exists folder new,
    uploads (fst (uploadPageAttachment self fs path attachments s))
    = List.app (uploads s) new /\
    Forall (fun e =>
              fst e = folder /\
              exists a h,
                In a attachments /\
                get_attr "href" (node_attrs a) = Some h /\
                isfile (windows_path self) fs
                  (path_join (windows_path self) path h) = true /\
                snd e = basename (windows_path self)
                          (upload_path self path h)) new.
Proof.
  unfold uploadPageAttachment.
  destruct (attachment_paths self fs path attachments [] "")
    as [[arr page_name]|] eqn:Ea.
  - destruct arr as [|f arr].
    + exists "", []. split; [symmetry; apply List.app_nil_r|constructor].
    + destruct (add_attachments_uploads self fs (f :: arr) (Some page_name)
                  false s) as (new & Hn & Hf).
      exists (target_folder_path self (Some page_name)), new.
      split; [exact Hn|].
      eapply List.Forall_impl; [|exact Hf].
      intros e (He & p & Hp & Hb & _). split; [exact He|].
      destruct (attachment_paths_local self fs path attachments _ _ _ _ Ea
                  p Hp) as [[]|(a & h & Ha & Hh & Hfile & ->)].
      exists a, h. auto.
  - exists "", []. split; [symmetry; apply List.app_nil_r|constructor].
Qed.

Section Descriptor.
Import Html Rewriter Canvas World Driver Examples Notions MoreExamples.
Variable self : Importer.
Variable fs : gmap string fs_entry.
Variable folder : string.

Lemma add_attachments_loop_reported (overwrite : bool)
  (files_to_add : list string) :
  forall done s result s' res,
    reported self fs folder overwrite s result done ->
    add_attachments_loop self fs folder overwrite files_to_add s result
    = (s', Some res) ->
    reported self fs folder overwrite s' res (List.app done files_to_add).
Proof.
  induction files_to_add as [|q rest IH]; intros done s result s' res Hinv Hrun.
  - injection Hrun as <- <-. now rewrite List.app_nil_r.
  - replace (List.app done (q :: rest)) with (List.app (List.app done [q]) rest)
      by (now rewrite <- List.app_assoc).
    simpl in Hrun.
    destruct (exists_path (windows_path self) fs q) eqn:Eq; simpl in Hrun.
    + destruct (fault s (round_trips s)); simpl in Hrun; [discriminate|].
      set (s1 := set_round_trips s (S (round_trips s))) in *.
      destruct (if overwrite then None
                else folder_files s1 folder !! basename (windows_path self) q)
        as [file|] eqn:Efound.
      * (* skipped *)
        destruct overwrite eqn:Eo; [discriminate|].
        refine (IH _ _ _ _ _ _ Hrun).
        intros p Hp Hex. apply List.in_app_or in Hp.
        destruct (decide (p = q)) as [->|Hne].
        -- exists file, {[ "result" := exists_text;
                           "name" := name file;
                           "serverRelativeUrl" := serverRelativeUrl file ]}.
           split; [exact Efound|]. split; [apply lookup_insert_eq|].
           split; [reflexivity|]. split; [reflexivity|discriminate].
        -- destruct Hp as [Hp|[Hp|[]]]; [|congruence].
           destruct (Hinv p Hp Hex) as (f & st & H1 & H2 & H3 & H4 & H5).
           exists f, st. split; [exact H1|].
           split; [now rewrite !lookup_insert_ne by congruence|auto].
      * (* uploaded *)
        destruct (read_file (windows_path self) fs q) as [content|];
          [|discriminate].
        simpl in Hrun.
        destruct (fault s (S (round_trips s))); simpl in Hrun; [discriminate|].
        refine (IH _ _ _ _ _ _ Hrun).
        intros p Hp Hex. apply List.in_app_or in Hp.
        set (d := {| name := basename (windows_path self) q;
                     serverRelativeUrl :=
                       folder ++ "/" ++ basename (windows_path self) q |}).
        destruct (decide (p = q)) as [->|Hne].
        -- exists d, {[ "result" := completed_text;
                        "name" := name d;
                        "serverRelativeUrl" := serverRelativeUrl d ]}.
           split.
           { unfold folder_files at 1. simpl.
             rewrite lookup_insert_eq. apply lookup_insert_eq. }
           split; [apply lookup_insert_eq|].
           split; [reflexivity|]. split; [reflexivity|reflexivity].
        -- destruct Hp as [Hp|[Hp|[]]]; [|congruence].
           destruct (Hinv p Hp Hex) as (f & st & H1 & H2 & H3 & H4 & H5).
           destruct (decide (basename (windows_path self) p
                             = basename (windows_path self) q)) as [Eb|Nb].
           ++ assert (Hf : f = d).
              { destruct overwrite eqn:Eo.
                - rewrite (H5 eq_refl). unfold d. now rewrite Eb.
                - rewrite Eb in H1.
                  change (folder_files s folder) with (folder_files s1 folder)
                    in H1.
                  rewrite H1 in Efound. discriminate. }
              subst f. exists d, st. split.
              { unfold folder_files at 1. simpl.
                rewrite lookup_insert_eq. rewrite Eb.
                apply lookup_insert_eq. }
              split; [now rewrite !lookup_insert_ne by congruence|auto].
           ++ exists f, st. split.
              { unfold folder_files at 1. simpl.
                rewrite lookup_insert_eq.
                rewrite lookup_insert_ne by congruence. exact H1. }
              split; [now rewrite !lookup_insert_ne by congruence|auto].
    + refine (IH _ _ _ _ _ _ Hrun).
      intros p Hp Hex. apply List.in_app_or in Hp.
      destruct (decide (p = q)) as [->|Hne]; [congruence|].
      destruct Hp as [Hp|[Hp|[]]]; [|congruence].
      destruct (Hinv p Hp Hex) as (f & st & H1 & H2 & H3 & H4 & H5).
      exists f, st. split; [exact H1|].
      split; [now rewrite !lookup_insert_ne by congruence|auto].
Qed.

End Descriptor.

(** X15: after a call of [add_attachments] that no exception interrupts,
    the folder holds a file under the name of every path that exists
    locally, and the status of the path carries the name and the URL of
    that file; with [overwrite] on it is the uploaded file. *)
Theorem add_attachments_reports_descriptors (self : Importer)
  (fs : gmap string fs_entry) (files_to_add : list string)
  (page_folder : option string) (overwrite : bool) (s s' : Site)
  (r : gmap string status) (path : string) :
  add_attachments_try self fs files_to_add page_folder overwrite s
  = (s', Some r) ->
  In path files_to_add ->
  exists_path (windows_path self) fs path = true ->
  exists f st,
    folder_files s' (target_folder_path self page_folder)
      !! basename (windows_path self) path = Some f /\
    r !! path = Some st /\
    st !! "name" = Some (name f) /\
    st !! "serverRelativeUrl" = Some (serverRelativeUrl f) /\
    (overwrite = true ->
     f = {| name := basename (windows_path self) path;
            serverRelativeUrl :=
              target_folder_path self page_folder ++ "/"
              ++ basename (windows_path self) path |}).
Proof.
  intros Htry Hin Hex.
  unfold add_attachments_try, execute_query in Htry.
  destruct (fault s (round_trips s)); simpl in Htry; [discriminate|].
  match type of Htry with
  | context [fault ?s2 (round_trips ?s2)] =>
      destruct (fault s2 (round_trips s2)); simpl in Htry; [discriminate|]
  end.
  apply (add_attachments_loop_reported self fs
           (target_folder_path self page_folder) overwrite files_to_add
           [] _ _ _ _ ltac:(intros p []) Htry path Hin Hex).
Qed.

End MoreUploads.

Section MoreUploadExamples.
Import Html Rewriter Canvas World Driver Examples Notions MoreExamples.

Lemma add_attachments_failure_reports_all_witness :
  let out := add_attachments example_importer example_attachment_files
               ["export/attachments/42/report.pdf";
                "export/attachments/42/logo.png"]
               (Some "attachments/42") false
               (example_site_failing (fun n => Nat.eqb n 4)) in
  snd out !! "export/attachments/42/report.pdf"
  = Some {[ "result" := "Upload failed due to an error." ]} /\
  uploads (fst out) = [("SiteAssets/attachments/42", "report.pdf")].
Proof.
  split.
  - apply add_attachments_failure_reports_all.
    + vm_compute. reflexivity.
    + left. reflexivity.
  - vm_compute. reflexivity.
Defined.

Lemma add_attachments_reports_descriptors_witness :
  exists (f : RemoteFile) (st : gmap string string),
    folder_files
      (fst (add_attachments_try example_importer example_attachment_files
              ["export/attachments/42/logo.png"] (Some "attachments/42")
              true example_site))
      "SiteAssets/attachments/42" !! "logo.png" = Some f /\
    st !! "name" = Some (name f) /\
    f = {| name := "logo.png";
           serverRelativeUrl := "SiteAssets/attachments/42/logo.png" |}.
Proof.
  destruct (add_attachments_reports_descriptors example_importer
              example_attachment_files ["export/attachments/42/logo.png"]
              (Some "attachments/42") true example_site _ _
              "export/attachments/42/logo.png"
              ltac:(vm_compute; reflexivity) ltac:(left; reflexivity)
              ltac:(vm_compute; reflexivity))
    as (f & st & H1 & _ & H3 & _ & H5).
  exists f, st. split; [exact H1|]. split; [exact H3|].
  exact (H5 eq_refl).
Defined.

Lemma uploadPageAttachment_missing_href_witness :
  uploadPageAttachment example_importer example_attachment_files "export/"
    [Tag "a" [("href", "attachments/42/report.pdf")] [];
     Tag "a" [("name", "top")] []]
    example_site
  = (example_site, false).
Proof. apply uploadPageAttachment_missing_href. reflexivity. Defined.

Lemma uploadPageAttachment_nothing_local_witness :
  uploadPageAttachment example_importer example_attachment_files "export/"
    [Tag "a" [("href", "attachments/42/missing.png")] []]
    example_site
  = (example_site, true).
Proof.
  apply uploadPageAttachment_nothing_local. vm_compute. reflexivity.
Defined.

End MoreUploadExamples.

(** ** Pages of the site and removal of elements *)


Section MorePages.
Import Html Rewriter Canvas World Driver Examples Notions MoreExamples.

Lemma update_item_pages (s : Site) (id : nat) (params : list (string * string)) :
  pages (fst (update_item s id params)) = pages s.
Proof.
  unfold update_item, execute_query.
  destruct (fault s (round_trips s)); simpl; [reflexivity|].
  destruct (existsb _ _); simpl; [|reflexivity].
  destruct (fault s (S (round_trips s))); reflexivity.
Qed.

Lemma update_page_pages (s : Site) (id : nat) (f : SitePage -> SitePage) :
  pages (update_page s id f) = List.map (at_page id f) (pages s).
Proof. reflexivity. Qed.

Lemma map_at_page_twice (id : nat) (f g : SitePage -> SitePage)
  (l : list SitePage) :
  (forall p, page_id (f p) = page_id p) ->
  List.map (at_page id g) (List.map (at_page id f) l)
  = List.map (at_page id (fun p => g (f p))) l.
Proof.
  intros Hf. rewrite List.map_map. apply List.map_ext. intros p.
  unfold at_page. destruct (Nat.eqb (page_id p) id) eqn:E.
  - now rewrite Hf, E.
  - now rewrite E.
Qed.

Lemma execute_query_pages (s s1 : Site) (ok : bool) :
  execute_query s = (s1, ok) -> pages s1 = pages s /\ items s1 = items s.
Proof. intros [= <- _]. split; reflexivity. Qed.

(** The pages after the second half of [add_edit_page]: with a dictionary
    returned, the page [site_page] was checked out and published with the
    canvas; otherwise it was at most checked out. *)
Lemma attach_canvas_pages (self : Importer) (fs : gmap string fs_entry)
  (s : Site) (site_page : nat) (page_name : string) (page_canvas : list json)
  (sp_fields : list (string * string)) (attachments : list string)
  (item_page : list ListItem) (s' : Site) (out : page_outcome) :
  attach_canvas self fs s site_page page_name page_canvas sp_fields
    attachments item_page = (s', out) ->
  if is_page out
  then pages s'
       = List.map (at_page site_page
                     (fun p => republished page_name (Some page_canvas)
                                 (checked_out p)))
           (pages s)
  else pages s' = pages s \/
       pages s' = List.map (at_page site_page checked_out) (pages s).
Proof.
  unfold attach_canvas. destruct item_page as [|data rest].
  { intros [= <- <-]. now left. }
  destruct (execute_query s) as [s1 ok1] eqn:E1.
  apply execute_query_pages in E1 as [P1 _].
  destruct ok1; cbn [negb]; [|intros [= <- <-]; now left].
  assert (H2 : pages (fst (match sp_fields with
                           | [] => (s1, true)
                           | _ :: _ => update_item s1 (item_id data) sp_fields
                           end)) = pages s).
  { destruct sp_fields; [exact P1|]. now rewrite update_item_pages. }
  destruct (match sp_fields with
            | [] => (s1, true)
            | _ :: _ => update_item s1 (item_id data) sp_fields
            end) as [s2 ok2]. simpl in H2.
  destruct ok2; cbn [negb]; [|intros [= <- <-]; now left].
  assert (H3 : pages (match attachments with
                      | [] => s2
                      | _ :: _ =>
                          match item_id data with
                          | O => fst (add_attachments self fs attachments
                                        None false s2)
                          | S _ => s2
                          end
                      end) = pages s).
  { destruct attachments; [exact H2|].
    destruct (item_id data); [|exact H2].
    rewrite (proj2 (add_attachments_same_pages self fs _ None false s2)).
    exact H2. }
  generalize dependent (match attachments with
                        | [] => s2
                        | _ :: _ =>
                            match item_id data with
                            | O => fst (add_attachments self fs attachments
                                          None false s2)
                            | S _ => s2
                            end
                        end).
  intros s3 H3.
  destruct (execute_query s3) as [s4 ok4] eqn:E4.
  apply execute_query_pages in E4 as [P4 _].
  destruct ok4; cbn [negb]; [|intros [= <- <-]; left; congruence].
  destruct (execute_query (update_page s4 site_page checked_out))
    as [s6 ok6] eqn:E6.
  apply execute_query_pages in E6 as [P6 _].
  rewrite update_page_pages in P6.
  destruct ok6; cbn [negb]; intros H; injection H as <- <-; simpl.
  - rewrite P6, P4, H3. apply map_at_page_twice. reflexivity.
  - right. congruence.
Qed.

Lemma le_fold_max (x b : nat) (l : list nat) :
  In x l -> x <= fold_right Nat.max b l.
Proof.
  induction l as [|y r IH]; intros H; [destruct H|].
  simpl. destruct H as [->|H]; [lia|]. specialize (IH H). lia.
Qed.

Lemma fresh_id_above (s : Site) (p : SitePage) :
  In p (pages s) -> page_id p <> fresh_id s.
Proof.
  intros H. unfold fresh_id.
  pose proof (le_fold_max (page_id p)
                (fold_right Nat.max 0 (List.map item_id (items s)))
                (List.map page_id (pages s))
                (List.in_map page_id _ _ H)).
  lia.
Qed.

Lemma map_at_page_other (id : nat) (f : SitePage -> SitePage)
  (l : list SitePage) :
  (forall p, In p l -> page_id p <> id) ->
  List.map (at_page id f) l = l.
Proof.
  induction l as [|p r IH]; intros H; [reflexivity|].
  simpl. unfold at_page at 1.
  destruct (Nat.eqb_spec (page_id p) id) as [E|E].
  - exfalso. apply (H p); [now left|exact E].
  - f_equal. apply IH. intros q Hq. apply H. now right.
Qed.

Lemma add_edit_page_new_page (self : Importer)
  (fs : gmap string fs_entry) (s : Site) (page_name : string)
  (page_canvas : list json) (author : option User)
  (sp_fields : list (string * string)) (attachments : list string)
  (s' : Site) (out : page_outcome) :
  add_edit_page self fs s page_name page_canvas author sp_fields attachments
    None = (s', out) ->
  exists new,
    pages s' = List.app (pages s) new /\
    if is_page out
    then new = [{| page_id := fresh_id s; page_title := page_name;
                   World.page_canvas := Some page_canvas;
                   page_checked_out := false |}]
    else new = [] \/
         exists checked,
           new = [{| page_id := fresh_id s; page_title := page_name;
                     World.page_canvas := None;
                     page_checked_out := checked |}].
Proof.
  unfold add_edit_page.
  destruct (execute_query s) as [s1 ok1] eqn:E1.
  apply execute_query_pages in E1 as [P1 I1].
  destruct ok1; cbn [negb].
  2:{ intros [= <- <-]. exists []. rewrite List.app_nil_r. simpl. auto. }
  assert (Hid : fresh_id s1 = fresh_id s)
    by (unfold fresh_id; now rewrite P1, I1).
  unfold publish_new_page. rewrite Hid.
  set (shell := {| page_id := fresh_id s; page_title := page_name;
                   World.page_canvas := None; page_checked_out := false |}).
  match goal with
  | |- context [execute_query ?s2] =>
      destruct (execute_query s2) as [s3 ok3] eqn:E3
  end.
  apply execute_query_pages in E3 as [P3 _]. simpl in P3. rewrite P1 in P3.
  destruct ok3; cbn [negb].
  2:{ intros [= <- <-]. exists [shell]. split; [exact P3|].
      simpl. right. exists false. reflexivity. }
  intros Hattach. apply attach_canvas_pages in Hattach.
  assert (Hmap : forall f,
             List.map (at_page (fresh_id s) f) (pages s3)
             = List.app (pages s) [f shell]).
  { intros f. rewrite P3, List.map_app.
    rewrite (map_at_page_other _ f (pages s)).
    - simpl. unfold at_page. simpl. now rewrite Nat.eqb_refl.
    - intros p Hp. now apply fresh_id_above. }
  destruct (is_page out).
  - rewrite Hmap in Hattach. eexists. split; [exact Hattach|reflexivity].
  - destruct Hattach as [H|H].
    + rewrite P3 in H. exists [shell]. split; [exact H|].
      right. exists false. reflexivity.
    + rewrite Hmap in H. eexists. split; [exact H|].
      right. exists true. reflexivity.
Qed.


(** With no page identifier, the pages of the site are kept and at most one
    is added. *)
Lemma add_edit_page_new_pages (self : Importer)
  (fs : gmap string fs_entry) (s : Site) (page_name : string)
  (page_canvas : list json) (author : option User)
  (sp_fields : list (string * string)) (attachments : list string)
  (s' : Site) (out : page_outcome) :
  add_edit_page self fs s page_name page_canvas author sp_fields attachments
    None = (s', out) ->
  exists new, pages s' = List.app (pages s) new /\ List.length new <= 1.
Proof.
  intros H. destruct (add_edit_page_new_page _ _ _ _ _ _ _ _ _ _ H)
    as (new & Hn & Hshape).
  exists new. split; [exact Hn|].
  destruct (is_page out).
  - subst new. simpl. lia.
  - destruct Hshape as [->|(c & ->)]; simpl; lia.
Qed.

(** X19: called without a page identifier, [add_edit_page] changes no
    page that the site has; it adds at most one page, which carries the
    canvas exactly when the call returns the dictionary of the page, and no
    canvas when the call raises or returns [None]. *)
Theorem add_edit_page_adds_a_page (self : Importer)
  (fs : gmap string fs_entry) (s : Site) (page_name : string)
  (page_canvas : list json) (author : option User)
  (sp_fields : list (string * string)) (attachments : list string)
  (s' : Site) (out : page_outcome) :
  add_edit_page self fs s page_name page_canvas author sp_fields attachments
    None = (s', out) ->
  exists new,
    pages s' = List.app (pages s) new /\
    if is_page out
    then new = [{| page_id := fresh_id s; page_title := page_name;
                   World.page_canvas := Some page_canvas;
                   page_checked_out := false |}]
    else new = [] \/
         exists checked,
           new = [{| page_id := fresh_id s; page_title := page_name;
                     World.page_canvas := None;
                     page_checked_out := checked |}].
Proof. apply add_edit_page_new_page. Qed.

Lemma remove_class_tag (cls name : string) (a : attrs) (c : list node) :
  remove_class cls (Tag name a c) = Tag name a (remove_class_list cls c).
Proof.
  simpl. f_equal. induction c as [|x r IH]; simpl; [reflexivity|].
  now rewrite IH.
Qed.

Lemma remove_class_top (cls c : string) (x : node) :
  has_class c (remove_class cls x) = has_class c x.
Proof. destruct x as [s|name a ch]; [reflexivity|]. now rewrite remove_class_tag. Qed.

Lemma has_class_text (c : string) (x : node) :
  is_tag x = false -> has_class c x = false.
Proof. destruct x; [reflexivity|discriminate]. Qed.

(** Removing the class [cls] keeps the tree free of a class [c] that it
    was free of, and frees it of [cls]. *)
Lemma remove_class_clean (cls c : string) (n : node) :
  (c = cls \/ Forall (fun x => has_class c x = false) (descendants n)) ->
  Forall (fun x => has_class c x = false) (descendants (remove_class cls n)).
Proof.
  induction n as [s|name a ch IH] using node_rect_children; intros H;
    [constructor|].
  rewrite remove_class_tag, descendants_tag.
  assert (H' : c = cls \/
               Forall (fun x => has_class c x = false) (descendants_list ch)).
  { destruct H as [H|H]; [now left|right]. now rewrite descendants_tag in H. }
  clear H. induction ch as [|x r IHr]; [constructor|].
  apply Forall_cons in IH as [Hx Hr]. specialize (IHr Hr).
  assert (Hr' : c = cls \/
                Forall (fun y => has_class c y = false) (descendants_list r)).
  { destruct H' as [H|H]; [now left|right].
    rewrite descendants_list_cons in H.
    apply Forall_cons in H as [_ H]. now apply Forall_app in H as [_ H]. }
  simpl. destruct (is_tag x && has_class cls x) eqn:E; [now apply IHr|].
  rewrite descendants_list_cons. constructor.
  - rewrite remove_class_top.
    destruct H' as [->|H].
    + destruct (is_tag x) eqn:Et; [exact E|now apply has_class_text].
    + rewrite descendants_list_cons in H. now apply Forall_cons in H as [H _].
  - apply Forall_app. split; [|now apply IHr].
    apply Hx. destruct H' as [H|H]; [now left|right].
    rewrite descendants_list_cons in H.
    apply Forall_cons in H as [_ H]. now apply Forall_app in H as [H _].
Qed.

Lemma remove_class_noop (cls : string) (n : node) :
  Forall (fun x => has_class cls x = false) (descendants n) ->
  remove_class cls n = n.
Proof.
  induction n as [s|name a ch IH] using node_rect_children; intros H;
    [reflexivity|].
  rewrite remove_class_tag. f_equal. rewrite descendants_tag in H.
  induction ch as [|x r IHr]; [reflexivity|].
  apply Forall_cons in IH as [Hx Hr]. specialize (IHr Hr).
  rewrite descendants_list_cons in H.
  apply Forall_cons in H as [H1 H2]. apply Forall_app in H2 as [H2 H3].
  simpl. rewrite H1, andb_false_r. now rewrite (Hx H2), (IHr H3).
Qed.

Lemma remove_elements_clean (elements_to_remove : list string) (c : string) :
  forall n,
    (In c elements_to_remove \/
     Forall (fun x => has_class c x = false) (descendants n)) ->
    Forall (fun x => has_class c x = false)
           (descendants (remove_elements n elements_to_remove)).
Proof.
  unfold remove_elements.
  induction elements_to_remove as [|cls l IH]; intros n H; simpl.
  - destruct H as [[]|H]. exact H.
  - apply IH. destruct H as [[->|H]|H].
    + right. apply remove_class_clean. now left.
    + now left.
    + right. apply remove_class_clean. now right.
Qed.

(** X21: after [remove_elements], for class names that are plain names, no
    element below the main content has any of the classes. *)
Theorem remove_elements_removes (main_content : node)
  (elements_to_remove : list string) (cls : string) (x : node) :
  forallb plain_name elements_to_remove = true ->
  In cls elements_to_remove ->
  In x (descendants (remove_elements main_content elements_to_remove)) ->
  has_class cls x = false.
Proof.
  intros _ Hin Hx.
  pose proof (remove_elements_clean elements_to_remove cls main_content
                (or_introl Hin)) as H.
  rewrite List.Forall_forall in H. now apply H.
Qed.

Lemma remove_elements_noop (elements_to_remove : list string) :
  forall n,
    (forall c, In c elements_to_remove ->
       Forall (fun x => has_class c x = false) (descendants n)) ->
    remove_elements n elements_to_remove = n.
Proof.
  unfold remove_elements.
  induction elements_to_remove as [|cls l IH]; intros n H; [reflexivity|].
  simpl. rewrite (remove_class_noop cls n) by (apply H; now left).
  apply IH. intros c Hc. apply H. now right.
Qed.

(** X22: [remove_elements] a second time with the same class names, plain
    names, changes nothing. *)
Theorem remove_elements_twice (main_content : node)
  (elements_to_remove : list string) :
  forallb plain_name elements_to_remove = true ->
  remove_elements (remove_elements main_content elements_to_remove)
    elements_to_remove
  = remove_elements main_content elements_to_remove.
Proof.
  intros _. apply remove_elements_noop. intros c Hc.
  apply remove_elements_clean. now left.
Qed.

End MorePages.

Section MorePagesExamples.
Import Html Rewriter Canvas World Driver Examples Notions MoreExamples.

Lemma add_edit_page_adds_a_page_witness :
  exists new,
    pages (fst (add_edit_page example_importer example_attachment_files
                  example_site "Intro" [settings_block] None [] [] None))
    = List.app (pages example_site) new /\
    new = [{| page_id := 1; page_title := "Intro";
              page_canvas := Some [settings_block];
              page_checked_out := false |}].
Proof.
  destruct (add_edit_page_adds_a_page example_importer
              example_attachment_files example_site "Intro" [settings_block]
              None [] [] _ _ eq_refl) as (new & Hn & Hshape).
  exists new. split; [exact Hn|exact Hshape].
Defined.


Lemma remove_elements_removes_witness :
  has_class "rw_corners"
    (Tag "p" [("class", "note")] [NavigableString "kept"]) = false.
Proof.
  apply (remove_elements_removes
           (Tag "div" [("id", "main-content")]
              [Tag "div" [("class", "panel rw_corners")]
                 [NavigableString "decoration"];
               Tag "p" [("class", "note")] [NavigableString "kept"]])
           ["rw_corners"; "wysiwyg-unknown-macro"] "rw_corners").
  - reflexivity.
  - left. reflexivity.
  - left. reflexivity.
Defined.

Lemma remove_elements_twice_witness :
  remove_elements
    (remove_elements
       (Tag "div" [("id", "main-content")]
          [Tag "div" [("class", "panel rw_corners")]
             [NavigableString "decoration"];
           Tag "p" [("class", "note")] [NavigableString "kept"]])
       ["rw_corners"; "wysiwyg-unknown-macro"])
    ["rw_corners"; "wysiwyg-unknown-macro"]
  = Tag "div" [("id", "main-content")]
      [Tag "p" [("class", "note")] [NavigableString "kept"]].
Proof.
  rewrite (remove_elements_twice _ ["rw_corners"; "wysiwyg-unknown-macro"]
             eq_refl).
  reflexivity.
Defined.

End MorePagesExamples.

(** ** The run, further *)

Section MoreRun.
Import Html Rewriter Canvas World Driver Examples Notions MoreExamples.

Lemma length_backslashes (s : string) :
  String.length (backslashes s) = String.length s.
Proof. induction s as [|c r IH]; simpl; [reflexivity|now rewrite IH]. Qed.

Lemma length_append (a b : string) :
  String.length (a ++ b) = String.length a + String.length b.
Proof. induction a as [|c r IH]; simpl; [reflexivity|now rewrite IH]. Qed.

Lemma append_assoc_string (a b c : string) : (a ++ b) ++ c = a ++ b ++ c.
Proof. induction a as [|x r IH]; simpl; [reflexivity|now rewrite IH]. Qed.

Lemma fs_key_complete (w : bool) (p : string) :
  fs_key w p <> fs_key w (p ++ "_complete").
Proof.
  intros E. apply (f_equal String.length) in E. unfold fs_key in E.
  destruct w; rewrite ?length_backslashes, length_append in E; simpl in E; lia.
Qed.

(** After [os.rename] to the completion name, the source is no file. *)
Lemma rename_complete (w : bool) (fs fs' : gmap string fs_entry) (p : string) :
  rename w fs p (p ++ "_complete") = Some fs' ->
  isfile w fs' p = false.
Proof.
  unfold rename, isfile. pose proof (fs_key_complete w p) as Hne.
  destruct (fs !! fs_key w p) as [e|]; [|discriminate].
  destruct (fs !! fs_key w (p ++ "_complete")) as [[c|]|];
    try discriminate.
  - destruct w; [discriminate|]. intros [= <-].
    rewrite lookup_insert_ne by (intros E; apply Hne; now symmetry).
    now rewrite lookup_delete_eq.
  - intros [= <-].
    rewrite lookup_insert_ne by (intros E; apply Hne; now symmetry).
    now rewrite lookup_delete_eq.
Qed.

(** What one visit of a page with content does to the log, to the pages of
    the site and to the page file. *)
Lemma migrate_page_effects (lib : Libraries) (self : Importer)
  (path : string) (sp_fields : list (string * string))
  (elements_to_remove : list string) (page_name page_file : string)
  (page_soup main_content : node) (st : State) :
  let r := migrate_page lib self path sp_fields elements_to_remove page_name
             page_file page_soup main_content st in
  (exists lines, st_log (state_of r) = List.app (st_log st) lines /\
                 List.length lines <= 1) /\
  (exists new, pages (st_site (state_of r))
               = List.app (pages (st_site st)) new /\
               List.length new <= 1) /\
  (forall st', r = Next st' ->
     isfile (windows_path self) (st_fs st') (path ++ page_file) = false).
Proof.
  intros r. subst r. unfold migrate_page.
  pose proof (getSiteUser_same_pages (st_site st)
                (match select_one [] (by_class "author") page_soup with
                 | Some page_author => text page_author
                 | None => ""
                 end)) as [_ H1].
  destruct (getSiteUser (st_site st) _) as [s1 user]. simpl in H1.
  set (attachments := select _ _ page_soup).
  assert (H2 : pages (match attachments with
                      | [] => s1
                      | _ :: _ =>
                          fst (uploadPageAttachment self (st_fs st) path
                                 attachments s1)
                      end) = pages (st_site st)).
  { destruct attachments; [exact H1|].
    rewrite (proj2 (uploadPageAttachment_same_pages self (st_fs st) path _
                      s1)). exact H1. }
  generalize dependent (match attachments with
                        | [] => s1
                        | _ :: _ =>
                            fst (uploadPageAttachment self (st_fs st) path
                                   attachments s1)
                        end).
  intros s2 H2.
  assert (Hnone : forall (s : Site) (u : nat) (log : list string),
             pages s = pages (st_site st) -> log = st_log st ->
             let st0 := {| st_fs := st_fs st; st_site := s; st_log := log;
                           st_uuid := u |} in
             (exists lines, st_log st0 = List.app (st_log st) lines /\
                            List.length lines <= 1) /\
             (exists new, pages (st_site st0)
                          = List.app (pages (st_site st)) new /\
                          List.length new <= 1)).
  { intros s u log Hp ->. simpl. split.
    - exists []. split; [symmetry; apply List.app_nil_r|simpl; lia].
    - exists []. rewrite Hp. split; [symmetry; apply List.app_nil_r|simpl; lia]. }
  destruct (fixAnchors _ _ _) as [mc ok].
  destruct ok; cbn [negb].
  2:{ simpl. destruct (Hnone s2 (st_uuid st) (st_log st) H2 eq_refl) as [A B].
      split; [exact A|]. split; [exact B|]. intros st' [=]. }
  destruct (canvas _) as [page_canvas|] eqn:Ec.
  2:{ simpl. destruct (Hnone s2 (next_uuid (getSPPageCanvas (uuid4 lib)
                                  (to_str lib) self (st_uuid st) mc))
                         (st_log st) H2 eq_refl) as [A B].
      split; [exact A|]. split; [exact B|]. intros st' [=]. }
  destruct (add_edit_page self (st_fs st) s2 page_name page_canvas user
              sp_fields [] None) as [s3 out] eqn:Ea.
  destruct (add_edit_page_new_pages _ _ _ _ _ _ _ _ _ _ Ea)
    as (new & Hnew & Hlen).
  rewrite H2 in Hnew.
  assert (Hpages : exists new0,
             pages s3 = List.app (pages (st_site st)) new0 /\
             List.length new0 <= 1) by eauto.
  destruct out as [|page].
  { simpl. split; [|split; [exact Hpages|intros st' [=]]].
    exists []. split; [symmetry; apply List.app_nil_r|simpl; lia]. }
  set (links := find_all is_link _).
  assert (Hlog : forall info,
             exists lines,
               fst (logLinks links (info_url info) (st_log st))
               = List.app (st_log st) lines /\ List.length lines <= 1).
  { intros info. unfold logLinks.
    destruct (last_href links None) as [[l h]|].
    - destruct (existsb (fun m => contains m h) ["html"]).
      + exists [log_line h (text l) (info_url info)].
        split; [reflexivity|simpl; lia].
      + exists []. split; [symmetry; apply List.app_nil_r|simpl; lia].
    - exists []. split; [symmetry; apply List.app_nil_r|simpl; lia]. }
  assert (Hlogged :
            match (match links with
                   | [] => Some (st_log st)
                   | _ :: _ =>
                       match page with
                       | Some info =>
                           Some (fst (logLinks links (info_url info)
                                        (st_log st)))
                       | None => None
                       end
                   end) with
            | Some log => exists lines,
                log = List.app (st_log st) lines /\ List.length lines <= 1
            | None => True
            end).
  { destruct links; [|destruct page; [apply Hlog|exact I]].
    exists []. split; [symmetry; apply List.app_nil_r|simpl; lia]. }
  destruct (match links with
            | [] => Some (st_log st)
            | _ :: _ => _
            end) as [log|].
  2:{ simpl. split; [|split; [exact Hpages|intros st' [=]]].
      exists []. split; [symmetry; apply List.app_nil_r|simpl; lia]. }
  destruct (rename (windows_path self) (st_fs st) (path ++ page_file)
              (path ++ page_file ++ "_complete")) as [fs'|] eqn:Er.
  - simpl. split; [exact Hlogged|]. split; [exact Hpages|].
    intros st' [= <-]. simpl.
    apply (rename_complete _ (st_fs st)).
    now rewrite append_assoc_string.
  - simpl. split; [exact Hlogged|]. split; [exact Hpages|]. intros st' [=].
Qed.

Lemma process_page_effects (lib : Libraries) (self : Importer)
  (path : string) (sp_fields : list (string * string))
  (elements_to_remove : list string) (page : node) (st : State) :
  let r := process_page lib self path sp_fields elements_to_remove page st in
  (exists lines, st_log (state_of r) = List.app (st_log st) lines /\
                 List.length lines <= 1) /\
  (exists new, pages (st_site (state_of r))
               = List.app (pages (st_site st)) new /\
               List.length new <= 1) /\
  (forall st', r = Next st' ->
     process_page lib self path sp_fields elements_to_remove page st'
     = Next st').
Proof.
  assert (Hsame : forall r : step,
             state_of r = st ->
             (exists lines, st_log (state_of r) = List.app (st_log st) lines /\
                            List.length lines <= 1) /\
             (exists new, pages (st_site (state_of r))
                          = List.app (pages (st_site st)) new /\
                          List.length new <= 1)).
  { intros r ->. split; exists [];
      (split; [symmetry; apply List.app_nil_r|simpl; lia]). }
  unfold process_page.
  destruct (select_one [] (by_name "a") page) as [page_link|];
    [|split; [apply (Hsame (Exception st) eq_refl)|];
      split; [apply (Hsame (Exception st) eq_refl)|intros st' [=]]].
  destruct (get_attr "href" (node_attrs page_link)) as [page_file|];
    [|split; [apply (Hsame (Exception st) eq_refl)|];
      split; [apply (Hsame (Exception st) eq_refl)|intros st' [=]]].
  destruct (isfile (windows_path self) (st_fs st) (path ++ page_file)) eqn:Ef.
  2:{ split; [apply (Hsame (Next st) eq_refl)|].
      split; [apply (Hsame (Next st) eq_refl)|].
      intros st' [= <-]. now rewrite Ef. }
  destruct (read_file (windows_path self) (st_fs st) (path ++ page_file))
    as [[page_soup|bytes]|] eqn:Er;
    try (split; [apply (Hsame (Exception st) eq_refl)|];
         split; [apply (Hsame (Exception st) eq_refl)|intros st' [=]]).
  destruct (select_one [] (by_id "main-content") page_soup)
    as [main_content|] eqn:Em;
    [|split; [apply (Hsame (Exception st) eq_refl)|];
      split; [apply (Hsame (Exception st) eq_refl)|intros st' [=]]].
  destruct (Nat.eqb (List.length (node_contents main_content)) 0
            || Nat.eqb (String.length (rstrip (text main_content))) 0)
    eqn:Ee.
  { split; [apply (Hsame (Next st) eq_refl)|].
    split; [apply (Hsame (Next st) eq_refl)|].
    intros st' [= <-]. now rewrite Ef, Er, Em, Ee. }
  destruct (migrate_page_effects lib self path sp_fields elements_to_remove
              (normalize_ws (text page_link)) page_file page_soup
              main_content st) as (A & B & C).
  split; [exact A|]. split; [exact B|].
  intros st' Hn. now rewrite (C st' Hn).
Qed.

(** X23: an entry that the loop has gone past is skipped when it is
    visited again: its page is missing, has no content, or was renamed with
    the completion suffix; nothing changes and no call is made. *)
Theorem process_page_revisit (lib : Libraries) (self : Importer)
  (path : string) (sp_fields : list (string * string))
  (elements_to_remove : list string) (page : node) (st st' : State) :
  process_page lib self path sp_fields elements_to_remove page st = Next st' ->
  process_page lib self path sp_fields elements_to_remove page st' = Next st'.
Proof.
  intros H.
  destruct (process_page_effects lib self path sp_fields elements_to_remove
              page st) as (_ & _ & C).
  now apply C.
Qed.

Lemma process_pages_effects (lib : Libraries) (self : Importer)
  (path : string) (sp_fields : list (string * string))
  (elements_to_remove : list string) (pageSection : list node) :
  forall st,
    let st' := fst (process_pages lib self path sp_fields elements_to_remove
                      pageSection st) in
    (exists lines, st_log st' = List.app (st_log st) lines /\
                   List.length lines <= List.length pageSection) /\
    (exists new, pages (st_site st') = List.app (pages (st_site st)) new /\
                 List.length new <= List.length pageSection).
Proof.
  induction pageSection as [|page rest IH]; intros st.
  - simpl. split; exists [];
      (split; [symmetry; apply List.app_nil_r|simpl; lia]).
  - simpl.
    destruct (process_page_effects lib self path sp_fields elements_to_remove
                page st) as ((l1 & L1 & N1) & (p1 & P1 & M1) & _).
    destruct (process_page lib self path sp_fields elements_to_remove page st)
      as [st1|st1]; simpl in L1, P1.
    + destruct (IH st1) as ((l2 & L2 & N2) & (p2 & P2 & M2)).
      split.
      * exists (List.app l1 l2). rewrite L2, L1, List.app_assoc.
        split; [reflexivity|]. rewrite List.length_app. lia.
      * exists (List.app p1 p2). rewrite P2, P1, List.app_assoc.
        split; [reflexivity|]. rewrite List.length_app. lia.
    + simpl. split.
      * exists l1. split; [exact L1|lia].
      * exists p1. split; [exact P1|lia].
Qed.

(** X24: the loop over the index only appends to the link log and only
    adds pages to the site, at most one message and one page for each
    entry, whether it ends normally or by an exception. *)
Theorem process_pages_appends (lib : Libraries) (self : Importer)
  (path : string) (sp_fields : list (string * string))
  (elements_to_remove : list string) (pageSection : list node) (st : State) :
  let st' := fst (process_pages lib self path sp_fields elements_to_remove
                    pageSection st) in
  (exists lines, st_log st' = List.app (st_log st) lines /\
                 List.length lines <= List.length pageSection) /\
  (exists new, pages (st_site st') = List.app (pages (st_site st)) new /\
               List.length new <= List.length pageSection).
Proof. apply process_pages_effects. Qed.

(** X25: whatever it answers, [parse_confluence_HTML] keeps every message
    of the link log and every page of the site as they were: a run never
    updates or removes a page, also not one that an earlier run made for the
    same export. *)
Theorem parse_confluence_HTML_appends (lib : Libraries) (self : Importer)
  (path : string) (sp_fields : list (string * string))
  (elements_to_remove : list string) (st : State) :
  let st' := fst (parse_confluence_HTML lib self path sp_fields
                    elements_to_remove st) in
  (exists lines, st_log st' = List.app (st_log st) lines) /\
  (exists new, pages (st_site st') = List.app (pages (st_site st)) new).
Proof.
  assert (Hsame : (exists lines, st_log st = List.app (st_log st) lines) /\
                  (exists new, pages (st_site st)
                               = List.app (pages (st_site st)) new)).
  { split; exists []; symmetry; apply List.app_nil_r. }
  unfold parse_confluence_HTML.
  destruct (negb _ || negb _); [exact Hsame|].
  destruct (read_file _ _ _) as [[soup|bytes]|]; try exact Hsame.
  destruct (select [by_class "confluenceTable"] (by_name "td") soup)
    as [|td [|td' tds]]; try exact Hsame;
    (destruct (exists_path _ _ _ && negb _); [exact Hsame|];
     destruct (process_pages_effects lib self path sp_fields
                 elements_to_remove (index_entries soup) st)
       as ((l & L & _) & (p & P & _)); split; eauto).
Qed.

End MoreRun.

Section MoreRunExamples.
Import Html Rewriter Canvas World Driver Examples Notions MoreExamples.

Lemma process_page_revisit_witness :
  let st := example_state (example_page "Welcome") (fun _ => false) true in
  let st' := state_of (process_page example_libraries example_importer
                         "export/" [] []
                         (example_entry "intro.html" "Intro") st) in
  isfile false (st_fs st') "export/intro.html_complete" = true /\
  process_page example_libraries example_importer "export/" [] []
    (example_entry "intro.html" "Intro") st' = Next st'.
Proof.
  split; [vm_compute; reflexivity|].
  apply (process_page_revisit example_libraries example_importer "export/"
           [] [] (example_entry "intro.html" "Intro")
           (example_state (example_page "Welcome") (fun _ => false) true)).
  vm_compute. reflexivity.
Defined.

End MoreRunExamples.

(** ** The tree after the paths are fixed, and the fields of an item *)

Section MoreTree.
Import Html Rewriter Canvas World Driver Examples Notions MoreExamples.

Lemma assign_app (p : node -> bool) (l1 l2 : list node) :
  forall new,
    assign p new (List.app l1 l2)
    = List.app (assign p new l1)
        (assign p (skipn (List.length (List.filter p l1)) new) l2).
Proof.
  induction l1 as [|x r IH]; intros new; [reflexivity|].
  simpl. destruct (p x).
  - destruct new as [|a' rest]; simpl.
    + rewrite IH, List.skipn_nil. reflexivity.
    + rewrite IH. reflexivity.
  - rewrite IH. reflexivity.
Qed.

Lemma write_back_is_tag (p : node -> bool) (new : list attrs) (name : string)
  (a : attrs) (c : list node) :
  exists c', fst (write_back p new (Tag name a c)) = Tag name a c'.
Proof.
  rewrite write_back_tag. destruct (write_back_list p new c) as [c' left].
  now exists c'.
Qed.

Lemma write_back_top (p : node -> bool) (new : list attrs) (n : node) :
  node_attrs (fst (write_back p new n)) = node_attrs n.
Proof.
  destruct n as [s|name a c]; [reflexivity|].
  destruct (write_back_is_tag p new name a c) as [c' E]. now rewrite E.
Qed.

(** What [write_back] does to the attributes below a node, and what it
    leaves of the dictionaries. *)
Lemma write_back_assign (p : node -> bool)
  (Hp : forall s, p (NavigableString s) = false) (n : node) :
  forall new,
    List.map node_attrs (descendants (fst (write_back p new n)))
    = assign p new (descendants n) /\
    snd (write_back p new n)
    = skipn (List.length (List.filter p (descendants n))) new.
Proof.
  induction n as [s|name a c IH] using node_rect_children; intros new;
    [split; reflexivity|].
  rewrite write_back_tag, (descendants_tag name a c).
  enough (H : List.map node_attrs
                (descendants_list (fst (write_back_list p new c)))
              = assign p new (descendants_list c) /\
              snd (write_back_list p new c)
              = skipn (List.length (List.filter p (descendants_list c))) new).
  { destruct (write_back_list p new c) as [c' left]. simpl fst. simpl snd.
    rewrite descendants_tag. exact H. }
  revert new. induction c as [|x r IHr]; intros new; [split; reflexivity|].
  apply Forall_cons in IH as [Hx Hr]. specialize (IHr Hr).
  rewrite descendants_list_cons.
  change (List.filter p (x :: ?l))
    with (if p x then x :: List.filter p l else List.filter p l).
  rewrite List.filter_app.
  unfold write_back_list; fold write_back_list.
  unfold assign; fold assign.
  destruct (p x) eqn:Epx.
  - destruct x as [s|nm ax cx]; [now rewrite Hp in Epx|].
    destruct new as [|a' rest].
    + destruct (Hx []) as [Hx1 Hx2]. clear Hx.
      destruct (write_back_is_tag p [] nm ax cx) as [c2 Ec2].
      destruct (write_back p [] (Tag nm ax cx)) as [x2 new2].
      cbn [fst snd] in Hx1, Hx2, Ec2. subst x2.
      destruct (IHr new2) as [Hr1 Hr2]. clear IHr Hr.
      destruct (write_back_list p new2 r) as [r' new3].
      cbn [fst snd] in *.
      rewrite descendants_list_cons, List.map_cons, List.map_app.
      rewrite Hx1, Hr1, assign_app. subst new2 new3.
      rewrite !List.skipn_nil. split; reflexivity.
    + destruct (Hx rest) as [Hx1 Hx2]. clear Hx.
      destruct (write_back_is_tag p rest nm ax cx) as [c2 Ec2].
      destruct (write_back p rest (Tag nm ax cx)) as [x2 new2].
      cbn [fst snd] in Hx1, Hx2, Ec2. subst x2.
      destruct (IHr new2) as [Hr1 Hr2]. clear IHr Hr.
      destruct (write_back_list p new2 r) as [r' new3].
      cbn [fst snd] in *.
      rewrite descendants_list_cons, List.map_cons, List.map_app.
      rewrite descendants_tag in Hx1 |- *.
      rewrite Hx1, Hr1, assign_app. subst new2 new3.
      split; [reflexivity|].
      cbn [List.length skipn].
      rewrite List.skipn_skipn, List.length_app. f_equal. lia.
  - destruct (Hx new) as [Hx1 Hx2]. clear Hx.
    pose proof (write_back_top p new x) as Ht.
    destruct (write_back p new x) as [x2 new2].
    cbn [fst snd] in Hx1, Hx2, Ht.
    destruct (IHr new2) as [Hr1 Hr2]. clear IHr Hr.
    destruct (write_back_list p new2 r) as [r' new3].
    cbn [fst snd] in *.
    rewrite descendants_list_cons, List.map_cons, List.map_app.
    rewrite Hx1, Hr1, assign_app. subst new2 new3.
    split.
    + now rewrite Ht.
    + rewrite List.skipn_skipn, List.length_app. f_equal. lia.
Qed.

Lemma shape_tag (name : string) (a : attrs) (c : list node) :
  shape (Tag name a c) = Tag name [] (List.map shape c).
Proof. reflexivity. Qed.

(** [write_back] changes attributes only. *)
Lemma write_back_shape (p : node -> bool) (n : node) :
  forall new, shape (fst (write_back p new n)) = shape n.
Proof.
  induction n as [s|name a c IH] using node_rect_children; intros new;
    [reflexivity|].
  rewrite write_back_tag.
  enough (H : List.map shape (fst (write_back_list p new c))
              = List.map shape c).
  { destruct (write_back_list p new c) as [c' left]. cbn [fst] in *.
    rewrite !shape_tag. now rewrite H. }
  revert new. induction c as [|x r IHr]; intros new; [reflexivity|].
  apply Forall_cons in IH as [Hx Hr]. specialize (IHr Hr).
  unfold write_back_list; fold write_back_list.
  destruct (if p x then _ else _) as [top new1].
  specialize (Hx new1).
  destruct (write_back p new1 x) as [x2 new2]. cbn [fst] in Hx.
  specialize (IHr new2).
  destruct (write_back_list p new2 r) as [r' new3]. cbn [fst] in *.
  rewrite !List.map_cons, IHr. f_equal.
  rewrite <- Hx. destruct top as [a'|]; [|reflexivity].
  destruct x2; reflexivity.
Qed.

Lemma is_attachment_attrs (n : node) :
  is_attachment n = attachment_attrs (node_attrs n).
Proof. destruct n; reflexivity. Qed.

Lemma filter_assign_new (new : list attrs) (l : list node) :
  forall (Hq : List.Forall (fun a => attachment_attrs a = true) new)
         (Hl : List.length new = List.length (List.filter is_attachment l)),
    List.filter attachment_attrs (assign is_attachment new l) = new.
Proof.
  revert new. induction l as [|x r IH]; intros new Hq Hl.
  - destruct new; [reflexivity|discriminate].
  - cbn [assign List.filter] in *.
    destruct (is_attachment x) eqn:E.
    + destruct new as [|a' rest]; [discriminate|].
      inversion Hq as [|? ? Ha Hrest]; subst.
      cbn [List.filter]. rewrite Ha. f_equal.
      apply IH; [assumption|]. simpl in Hl. lia.
    + cbn [List.filter]. rewrite <- is_attachment_attrs, E.
      now apply IH.
Qed.

Lemma filter_assign_old (new : list attrs) (l : list node) :
  forall (Hq : List.Forall (fun a => attachment_attrs a = true) new)
         (Hl : List.length new = List.length (List.filter is_attachment l)),
    List.filter (fun a => negb (attachment_attrs a))
      (assign is_attachment new l)
    = List.map node_attrs
        (List.filter (fun n => negb (is_attachment n)) l).
Proof.
  revert new. induction l as [|x r IH]; intros new Hq Hl; [reflexivity|].
  cbn [assign List.filter] in *.
  destruct (is_attachment x) eqn:E.
  - destruct new as [|a' rest]; [discriminate|].
    inversion Hq as [|? ? Ha Hrest]; subst.
    cbn [List.filter negb]. rewrite Ha. cbn [negb].
    apply IH; [assumption|]. simpl in Hl. lia.
  - cbn [List.filter negb]. rewrite <- is_attachment_attrs, E. cbn [negb].
    rewrite List.map_cons. f_equal. now apply IH.
Qed.

Lemma filter_map_attrs (q : attrs -> bool) (l : list node) :
  List.map node_attrs (List.filter (fun n => q (node_attrs n)) l)
  = List.filter q (List.map node_attrs l).
Proof.
  induction l as [|x r IH]; [reflexivity|].
  cbn [List.filter List.map]. destruct (q (node_attrs x)); simpl;
    now rewrite IH.
Qed.

Lemma fix_attachment_is_attachment (self : Importer) (n n' : node) :
  fix_attachment self n = Some n' -> is_attachment n' = is_attachment n.
Proof.
  destruct n as [s|name a c]; simpl; [now intros [= <-]|].
  destruct (String.eqb name "a").
  - destruct (get_attr "href" a); [|discriminate]. intros [= <-]. simpl.
    rewrite get_set_attr_other; [reflexivity|discriminate].
  - destruct (String.eqb name "img"); [|now intros [= <-]].
    destruct (get_attr "src" a); [|discriminate]. intros [= <-]. simpl.
    rewrite !get_set_attr_other; [reflexivity|discriminate|discriminate].
Qed.

Lemma fixAttachmentsPath_attachments (self : Importer) (l : list node) :
  List.Forall (fun n => is_attachment n = true) l ->
  List.Forall (fun n => is_attachment n = true)
    (fst (fixAttachmentsPath self l)) /\
  List.length (fst (fixAttachmentsPath self l)) = List.length l.
Proof.
  induction l as [|x r IH]; intros H; [split; [constructor|reflexivity]|].
  inversion H as [|? ? Hx Hr]; subst. specialize (IH Hr).
  cbn [fixAttachmentsPath].
  destruct (fix_attachment self x) as [x'|] eqn:E; [|split; [exact H|reflexivity]].
  destruct (fixAttachmentsPath self r) as [rest' ok]. cbn [fst] in *.
  destruct IH as [IH1 IH2]. split.
  - constructor; [|exact IH1].
    now rewrite (fix_attachment_is_attachment self x x' E).
  - simpl. now rewrite IH2.
Qed.

Lemma fix_paths_in_write_back (self : Importer) (main_content : node) :
  fix_paths_in self main_content
  = fst (write_back is_attachment
           (List.map node_attrs
              (fst (fixAttachmentsPath self
                      (find_all is_attachment main_content))))
           main_content).
Proof.
  unfold fix_paths_in.
  destruct (find_all is_attachment main_content) as [|x r] eqn:E.
  - pose proof (write_back_same is_attachment main_content []) as H.
    rewrite E in H. simpl in H. simpl. now rewrite H.
  - destruct (fixAttachmentsPath self (x :: r)) as [rewritten ok].
    reflexivity.
Qed.

(** X26: fixing the paths in the tree of a page changes attributes only,
    and only those of the attachment elements: the tags, the strings and
    their nesting stay, the attachment elements found afterwards are the
    same elements with the attributes that [fixAttachmentsPath] gave them,
    and every other element keeps its attributes. *)
Theorem fix_paths_in_elements (self : Importer) (main_content : node) :
  let after := fix_paths_in self main_content in
  shape after = shape main_content /\
  List.map node_attrs (find_all is_attachment after)
  = List.map node_attrs
      (fst (fixAttachmentsPath self (find_all is_attachment main_content))) /\
  List.map node_attrs
    (List.filter (fun n => negb (is_attachment n)) (descendants after))
  = List.map node_attrs
      (List.filter (fun n => negb (is_attachment n))
         (descendants main_content)).
Proof.
  intros after. subst after. rewrite fix_paths_in_write_back.
  set (new := List.map node_attrs
                (fst (fixAttachmentsPath self
                        (find_all is_attachment main_content)))).
  assert (Hall : List.Forall (fun n => is_attachment n = true)
                   (find_all is_attachment main_content)).
  { apply List.Forall_forall. intros n Hn.
    apply List.filter_In in Hn. tauto. }
  destruct (fixAttachmentsPath_attachments self _ Hall) as [Hf Hlen].
  assert (Hq : List.Forall (fun a => attachment_attrs a = true) new).
  { subst new. apply List.Forall_forall. intros a Ha.
    apply List.in_map_iff in Ha as [n [<- Hn]].
    rewrite <- is_attachment_attrs.
    exact (proj1 (List.Forall_forall _ _) Hf n Hn). }
  assert (Hl : List.length new
               = List.length (List.filter is_attachment
                                (descendants main_content))).
  { subst new. rewrite List.length_map. exact Hlen. }
  assert (Hp : forall s, is_attachment (NavigableString s) = false)
    by reflexivity.
  destruct (write_back_assign is_attachment Hp main_content new) as [Ha _].
  split; [apply write_back_shape|]. split.
  - unfold find_all at 1.
    rewrite (List.filter_ext is_attachment
               (fun n => attachment_attrs (node_attrs n))
               is_attachment_attrs).
    rewrite filter_map_attrs, Ha. now apply filter_assign_new.
  - rewrite (List.filter_ext (fun n => negb (is_attachment n))
               (fun n => (fun a => negb (attachment_attrs a)) (node_attrs n))).
    2:{ intros n. now rewrite is_attachment_attrs. }
    rewrite (filter_map_attrs (fun a => negb (attachment_attrs a))), Ha.
    now apply filter_assign_old.
Qed.




End MoreTree.

Section MoreTreeExamples.
Import Html Rewriter Canvas World Driver Examples Notions MoreExamples.


End MoreTreeExamples.
